(** * The uHand Bluetooth frame decoder ([bluetooth.cpp], [bluetooth.h])

    A shallow embedding of [blue_controller::receiveHandle] and
    [blue_controller::get_servos].  The decoder is a byte-at-a-time state
    machine over the wire format [0x55 0x55 number func info...]; its state
    is the two [blue_info] members, the [success] flag and the three
    function-local statics of [receiveHandle].

    Integers are [Z] with the wrap-around of their C++ type written out.
    The fixed-size arrays are lists; an access whose index is outside the
    declared bound of the array is undefined behaviour in C++ and is an
    explicit [Undefined] outcome here. *)

From Stdlib Require Import ZArith Lia.
From stdpp Require Import base tactics option list.

Local Open Scope Z_scope.

(** ** Constants of [bluetooth.h] *)

Definition FRAME_HEADER : Z := 0x55.
Definition CMD_SERVO_MOVE : Z := 0x03.
Definition CMD_ACTION_GROUP_RUN : Z := 0x06.
Definition CMD_ACTION_GROUP_STOP : Z := 0x07.

(** [uint8_t buf[128]] in [blue_info], [LobotServo servos[6]] in
    [uHand_Servo]. *)
Definition BUF_SIZE : Z := 128.
Definition SERVO_SLOTS : Z := 6.

(** ** Machine integers *)

Definition u8 (z : Z) : Z := z mod 256.
Definition u16 (z : Z) : Z := z mod 65536.

(** The conversion of an [int] to [size_t], as in the third argument of
    [memcpy].  [size_t] has at least 16 bits (it has exactly 16 on AVR); a
    wider one sends a negative [int] to an even larger value. *)
Definition size_t_of_int (z : Z) : Z := z mod 2 ^ 16.

(** ** Outcomes: a result, or undefined behaviour *)

Inductive array_id := RecBuf | ResultBuf | ServoSlots.

Inductive fault :=
| OobWrite (a : array_id) (index : Z)
| OobRead (a : array_id) (index : Z)
| OobCopy (count : Z).

Inductive outcome (A : Type) :=
| Ok (a : A)
| Undefined (f : fault).
Arguments Ok {A} a.
Arguments Undefined {A} f.

Global Instance outcome_ret : MRet outcome := λ A a, Ok a.
Global Instance outcome_bind : MBind outcome := λ A B k m,
  match m with
  | Ok a => k a
  | Undefined f => Undefined f
  end.

(** ** Data of [bluetooth.h] *)

Record LobotServo := { ID : Z; Position : Z }.

Record uHand_Servo := {
  num : Z;
  time : Z;
  servos : list LobotServo
}.

Record blue_info := {
  rec_num : Z;
  func : Z;
  buf : list Z
}.

(** What the code prints on [Serial]. *)
Inductive serial_line :=
| FuncLine (code : Z)   (* "func:" followed by the function code *)
| DefLine.              (* "-def-" *)

(** The members of [blue_controller], the statics [step], [head_count] and
    [data_count] of [receiveHandle], and the lines printed so far. *)
Record blue_controller := {
  rec_oj : blue_info;
  resule_oj : blue_info;
  success : Z;
  step : Z;
  head_count : Z;
  data_count : Z;
  serial_out : list serial_line
}.

Definition with_step (s : Z) (d : blue_controller) : blue_controller :=
  {| rec_oj := rec_oj d; resule_oj := resule_oj d; success := success d;
     step := s; head_count := head_count d; data_count := data_count d;
     serial_out := serial_out d |}.

Definition with_head_count (h : Z) (d : blue_controller) : blue_controller :=
  {| rec_oj := rec_oj d; resule_oj := resule_oj d; success := success d;
     step := step d; head_count := h; data_count := data_count d;
     serial_out := serial_out d |}.

Definition with_data_count (c : Z) (d : blue_controller) : blue_controller :=
  {| rec_oj := rec_oj d; resule_oj := resule_oj d; success := success d;
     step := step d; head_count := head_count d; data_count := c;
     serial_out := serial_out d |}.

Definition with_success (s : Z) (d : blue_controller) : blue_controller :=
  {| rec_oj := rec_oj d; resule_oj := resule_oj d; success := s;
     step := step d; head_count := head_count d; data_count := data_count d;
     serial_out := serial_out d |}.

Definition with_rec_oj (r : blue_info) (d : blue_controller) : blue_controller :=
  {| rec_oj := r; resule_oj := resule_oj d; success := success d;
     step := step d; head_count := head_count d; data_count := data_count d;
     serial_out := serial_out d |}.

Definition with_resule_oj (r : blue_info) (d : blue_controller) : blue_controller :=
  {| rec_oj := rec_oj d; resule_oj := r; success := success d;
     step := step d; head_count := head_count d; data_count := data_count d;
     serial_out := serial_out d |}.

Definition println (l : serial_line) (d : blue_controller) : blue_controller :=
  {| rec_oj := rec_oj d; resule_oj := resule_oj d; success := success d;
     step := step d; head_count := head_count d; data_count := data_count d;
     serial_out := serial_out d ++ [l] |}.

(** ** Arrays *)

Definition in_bounds (i size : Z) : bool := (0 <=? i) && (i <? size).

Definition buf_load (a : array_id) (l : list Z) (i : Z) : outcome Z :=
  if in_bounds i BUF_SIZE then Ok (default 0 (l !! Z.to_nat i))
  else Undefined (OobRead a i).

Definition buf_store (a : array_id) (l : list Z) (i v : Z) : outcome (list Z) :=
  if in_bounds i BUF_SIZE then Ok (<[Z.to_nat i := v]> l)
  else Undefined (OobWrite a i).

(** [memcpy(dst, src, n)] between two [buf] arrays. *)
Definition memcpy (dst src : list Z) (n : Z) : outcome (list Z) :=
  if n <=? BUF_SIZE
  then Ok (take (Z.to_nat n) src ++ drop (Z.to_nat n) dst)
  else Undefined (OobCopy n).

Definition set_ID (v : Z) (s : LobotServo) : LobotServo :=
  {| ID := v; Position := Position s |}.
Definition set_Position (v : Z) (s : LobotServo) : LobotServo :=
  {| ID := ID s; Position := v |}.

Definition servo_store (f : LobotServo → LobotServo)
    (l : list LobotServo) (i : Z) : outcome (list LobotServo) :=
  if in_bounds i SERVO_SLOTS then Ok (alter f (Z.to_nat i) l)
  else Undefined (OobWrite ServoSlots i).

(** [(hi << 8 & 0xff00) + lo], stored in a [uint16_t]. *)
Definition le16 (hi lo : Z) : Z := u16 (Z.land (Z.shiftl hi 8) 0xff00 + lo).

(** ** [blue_controller::blue_controller] *)

Definition zero_info : blue_info :=
  {| rec_num := 0; func := 0; buf := replicate (Z.to_nat BUF_SIZE) 0 |}.

(** Zero-initialised storage: a [blue_controller] object of static storage
    duration before its constructor runs, with the statics of
    [receiveHandle] at their initial value. *)
Definition zero_storage : blue_controller :=
  {| rec_oj := zero_info; resule_oj := zero_info; success := 0;
     step := 0; head_count := 0; data_count := 0; serial_out := [] |}.

Definition construct (storage : blue_controller) : blue_controller :=
  with_success 0 storage.

Definition fresh : blue_controller := construct zero_storage.

Definition empty_servos : uHand_Servo :=
  {| num := 0; time := 0;
     servos := replicate (Z.to_nat SERVO_SLOTS) {| ID := 0; Position := 0 |} |}.

(** ** [blue_controller::get_servos] *)

Fixpoint servo_loop (n : nat) (i : Z) (src : list Z) (out : list LobotServo)
    : outcome (list LobotServo) :=
  match n with
  | O => Ok out
  | S n' =>
      id ← buf_load ResultBuf src (i * 3 + 3);
      out1 ← servo_store (set_ID id) out i;
      hi ← buf_load ResultBuf src (i * 3 + 5);
      lo ← buf_load ResultBuf src (i * 3 + 4);
      out2 ← servo_store (set_Position (le16 hi lo)) out1 i;
      servo_loop n' (i + 1) src out2
  end.

Definition get_servos (d : blue_controller) (uhand_servos : uHand_Servo)
    : outcome (bool * blue_controller * uHand_Servo) :=
  if success d =? 0 then Ok (false, d, uhand_servos)
  else
    let d := with_success 0 d in
    let src := buf (resule_oj d) in
    if func (resule_oj d) =? CMD_SERVO_MOVE then
      n ← buf_load ResultBuf src 0;
      hi ← buf_load ResultBuf src 2;
      lo ← buf_load ResultBuf src 1;
      sv ← servo_loop (Z.to_nat n) 0 src (servos uhand_servos);
      Ok (true, d, {| num := n; time := le16 hi lo; servos := sv |})
    else
      Ok (false, println (FuncLine (func (resule_oj d))) d, uhand_servos).

(** ** [blue_controller::receiveHandle] *)

Section Receive.

(** Whether plain [char] is signed is the compiler's choice: it is on AVR
    and x86, it is not on ARM.  [rx] is declared [char]. *)
Variable char_signed : bool.

Definition to_char (z : Z) : Z :=
  if char_signed then (if u8 z <? 128 then u8 z else u8 z - 256) else u8 z.

(** One turn of the [while] loop: [b] is what [Serial.read()] returns.  The
    second component is the frame published by this byte, if any. *)
Definition rx_byte (d : blue_controller) (b : Z)
    : outcome (blue_controller * list blue_info) :=
  let rx := to_char b in
  if step d =? 0 then
    if rx =? FRAME_HEADER then
      let d := with_head_count (u8 (head_count d + 1)) d in
      if 1 <? head_count d
      then Ok (with_head_count 0 (with_step (u8 (step d + 1)) d), [])
      else Ok (d, [])
    else Ok (with_head_count 0 d, [])
  else if step d =? 1 then
    if (0 <? rx) || (rx <? 128) then
      let r := rec_oj d in
      let d := with_rec_oj {| rec_num := u8 rx; func := func r; buf := buf r |} d in
      Ok (with_step (u8 (step d + 1)) d, [])
    else Ok (with_step 0 d, [])
  else if step d =? 2 then
    if 0 <? rx then
      let r := rec_oj d in
      let d := with_rec_oj {| rec_num := rec_num r; func := u8 rx; buf := buf r |} d in
      Ok (with_step (u8 (step d + 1)) d, [])
    else Ok (with_step 0 d, [])
  else if step d =? 3 then
    let r := rec_oj d in
    b' ← buf_store RecBuf (buf r) (data_count d) (u8 rx);
    let r := {| rec_num := rec_num r; func := func r; buf := b' |} in
    let d := with_rec_oj r d in
    let d := with_data_count (u8 (data_count d + 1)) d in
    if rec_num r - 2 <? data_count d then
      copied ← memcpy (buf (resule_oj d)) (buf r) (size_t_of_int (rec_num r - 2));
      let res := {| rec_num := rec_num r; func := func r; buf := copied |} in
      let d := with_resule_oj res d in
      let d := with_success 1 d in
      let d := with_data_count 0 d in
      Ok (with_step 0 d, [res])
    else Ok (d, [])
  else
    Ok (with_step 0 (println DefLine d), []).

(** The [while (Serial.available() > 0)] loop over the bytes that are
    available when the function is called. *)
Fixpoint receiveHandle (d : blue_controller) (input : list Z)
    : outcome (blue_controller * list blue_info) :=
  match input with
  | [] => Ok (d, [])
  | b :: rest =>
      '(d1, f1) ← rx_byte d b;
      '(d2, f2) ← receiveHandle d1 rest;
      Ok (d2, f1 ++ f2)
  end.

(** Repeated calls, one per chunk of input. *)
Fixpoint receive_chunks (d : blue_controller) (chunks : list (list Z))
    : outcome (blue_controller * list blue_info) :=
  match chunks with
  | [] => Ok (d, [])
  | c :: cs =>
      '(d1, f1) ← receiveHandle d c;
      '(d2, f2) ← receive_chunks d1 cs;
      Ok (d2, f1 ++ f2)
  end.

End Receive.

(** The example frame of the protocol description. *)
Definition example_frame : list Z :=
  [0x55; 0x55; 0x07; 0x03; 0x01; 0x2C; 0x01; 0x05; 0x6E; 0x04].

(** ** States and values named in the statements *)

(** What [receiveHandle] publishes for [example_frame]: the length byte 7
    makes [memcpy] copy five bytes, so the sixth payload byte 0x04 stays in
    [rec_oj.buf] only. *)
Definition example_result : blue_info :=
  {| rec_num := 7; func := 3;
     buf := [1; 0x2C; 1; 5; 0x6E] ++ replicate 123 0 |}.

(** What holds of the statics in every state the decoder reaches. *)
Definition rx_inv (d : blue_controller) : Prop :=
  0 ≤ step d ≤ 3
  ∧ (head_count d = 0 ∨ (head_count d = 1 ∧ step d = 0))
  ∧ 0 ≤ data_count d ≤ BUF_SIZE
  ∧ (step d ≠ 3 → data_count d = 0)
  ∧ 0 ≤ rec_num (rec_oj d) < 256.

(** The decoder [d] with [stored] in [rec_oj.buf] and [data_count = c]. *)
Definition collecting (d : blue_controller) (stored : list Z) (c : Z)
    : blue_controller :=
  with_data_count c
    (with_rec_oj {| rec_num := rec_num (rec_oj d); func := func (rec_oj d);
                    buf := stored |} d).

(** The decoder [d] after it has published a frame with payload [copied]. *)
Definition published (d : blue_controller) (stored copied : list Z)
    : blue_controller :=
  {| rec_oj := {| rec_num := rec_num (rec_oj d); func := func (rec_oj d);
                  buf := stored |};
     resule_oj := {| rec_num := rec_num (rec_oj d); func := func (rec_oj d);
                     buf := copied |};
     success := 1; step := 0; head_count := head_count d; data_count := 0;
     serial_out := serial_out d |}.

(** The decoder [d] after the header, the length byte [n] and the function
    code [f]. *)
Definition awaiting_payload (d : blue_controller) (n f : Z) : blue_controller :=
  with_step 3
    (with_rec_oj {| rec_num := n; func := f; buf := buf (rec_oj d) |} d).

(** Servo [i] as the loop of [get_servos] reads it from the payload. *)
Definition decoded_servo (src : list Z) (i : nat) : LobotServo :=
  let at_ (k : Z) := default 0 (src !! Z.to_nat (Z.of_nat i * 3 + k)) in
  {| ID := at_ 3; Position := le16 (at_ 5) (at_ 4) |}.

(** What holds in addition while a payload is collected: the count of
    collected bytes is zero or at most [rec_num - 2], and the function code
    passed [rx > 0]. *)
Definition rx_safe (d : blue_controller) : Prop :=
  rx_inv d
  ∧ (step d = 3 →
     (data_count d = 0 ∨ data_count d ≤ rec_num (rec_oj d) - 2)
     ∧ 1 ≤ func (rec_oj d) ≤ 255).

(** Two decoders that differ at most in [success] and in what was printed:
    [receiveHandle] reads neither. *)
Definition rx_equiv (d1 d2 : blue_controller) : Prop :=
  rec_oj d1 = rec_oj d2 ∧ resule_oj d1 = resule_oj d2
  ∧ step d1 = step d2 ∧ head_count d1 = head_count d2
  ∧ data_count d1 = data_count d2.

(** The payload of a servo-move frame as [get_servos] reads it back: the
    count, the time and, per target, the ID and the position, low byte
    first; and the frame with its header, its length byte [num] counting
    itself, [func] and the payload, and its function code. *)
Definition target_bytes (t : LobotServo) : list Z :=
  [ID t; Position t mod 256; Position t / 256].

Definition servo_move_payload (time : Z) (targets : list LobotServo) : list Z :=
  [Z.of_nat (length targets); time mod 256; time / 256]
  ++ concat (target_bytes <$> targets).

Definition servo_move_frame (time : Z) (targets : list LobotServo) : list Z :=
  [FRAME_HEADER; FRAME_HEADER;
   Z.of_nat (length (servo_move_payload time targets)) + 2; CMD_SERVO_MOVE]
  ++ servo_move_payload time targets.

Definition valid_target (t : LobotServo) : Prop :=
  0 ≤ ID t < 256 ∧ 0 ≤ Position t < 65536.

(** * Properties *)

(** ** The outcome monad *)

Lemma bind_Ok {A B} (a : A) (k : A → outcome B) : Ok a ≫= k = k a.
Proof. reflexivity. Qed.

Lemma bind_Undefined {A B} (f : fault) (k : A → outcome B) :
  Undefined f ≫= k = Undefined f.
Proof. reflexivity. Qed.

Lemma bind_Ok_inv {A B} (m : outcome A) (k : A → outcome B) (b : B) :
  m ≫= k = Ok b → ∃ a, m = Ok a ∧ k a = Ok b.
Proof. destruct m as [a|f]; [eauto | discriminate]. Qed.

(** ** Chunking *)

Section Chunking.
Variable char_signed : bool.

Lemma receiveHandle_app (xs ys : list Z) : ∀ d,
  receiveHandle char_signed d (xs ++ ys) =
  '(d1, f1) ← receiveHandle char_signed d xs;
  '(d2, f2) ← receiveHandle char_signed d1 ys;
  Ok (d2, f1 ++ f2).
Proof.
  induction xs as [|x xs IH]; intros d; simpl.
  - destruct (receiveHandle char_signed d ys) as [[d2 f2]|f]; reflexivity.
  - destruct (rx_byte char_signed d x) as [[d1 f1]|f]; [|reflexivity].
    simpl. rewrite IH.
    destruct (receiveHandle char_signed d1 xs) as [[d2 f2]|f]; [|reflexivity].
    simpl.
    destruct (receiveHandle char_signed d2 ys) as [[d3 f3]|f]; [|reflexivity].
    simpl. by rewrite app_assoc.
Qed.

Lemma receive_chunks_concat (chunks : list (list Z)) : ∀ d,
  receive_chunks char_signed d chunks = receiveHandle char_signed d (concat chunks).
Proof.
  induction chunks as [|c cs IH]; intros d; simpl; [reflexivity|].
  rewrite receiveHandle_app.
  destruct (receiveHandle char_signed d c) as [[d1 f1]|f]; [|reflexivity].
  simpl. by rewrite IH.
Qed.

Lemma concat_singletons (bytes : list Z) : concat ((λ b, [b]) <$> bytes) = bytes.
Proof.
  induction bytes as [|b bs IH]; [reflexivity|].
  change (b :: concat ((λ b, [b]) <$> bs) = b :: bs). by rewrite IH.
Qed.

(** C1: however the input is split into chunks, calling [receiveHandle] on
    the chunks one after another gives the same outcome, that is the same
    published frames in the same order and the same final state (or the
    same undefined behaviour), as one call on the whole input; in
    particular one call per byte equals one call on all bytes. *)
Theorem receive_chunking_irrelevant :
  (∀ d chunks,
     receive_chunks char_signed d chunks
     = receiveHandle char_signed d (concat chunks))
  ∧ (∀ d bytes,
     receive_chunks char_signed d ((λ b, [b]) <$> bytes)
     = receiveHandle char_signed d bytes).
Proof.
  split; intros d l.
  - apply receive_chunks_concat.
  - by rewrite receive_chunks_concat, concat_singletons.
Qed.

End Chunking.

(** ** The example frame *)

Lemma example_frame_received (sgn : bool) :
  ∃ d, receiveHandle sgn fresh example_frame = Ok (d, [example_result])
       ∧ resule_oj d = example_result ∧ success d = 1 ∧ step d = 0.
Proof. destruct sgn; eexists; vm_compute; done. Qed.

Lemma alter_ID_Position (id pos : Z) (l : list LobotServo) (i : nat) :
  alter (set_Position pos) i (alter (set_ID id) i l)
  = alter (λ _, {| ID := id; Position := pos |}) i l.
Proof.
  revert i; induction l as [|s l IH]; intros [|i]; try done.
  change (s :: alter (set_Position pos) i (alter (set_ID id) i l)
          = s :: alter (λ _, {| ID := id; Position := pos |}) i l).
  by rewrite IH.
Qed.

Lemma example_frame_decoded (sgn : bool) (dst : uHand_Servo) :
  ∃ d, receiveHandle sgn fresh example_frame = Ok (d, [example_result])
    ∧ get_servos d dst
      = Ok (true, with_success 0 d,
            {| num := 1; time := 300;
               servos := alter (λ _, {| ID := 5; Position := 110 |}) 0%nat
                               (servos dst) |}).
Proof.
  destruct (example_frame_received sgn) as (d & Hrx & Hres & Hs & _).
  exists d. split; [done|].
  unfold get_servos. rewrite Hs. simpl. rewrite Hres. simpl.
  by rewrite alter_ID_Position.
Qed.

(** C2, as the code has it: the example frame, fed to a fresh decoder, is
    published and [get_servos] then returns [true] with servo count 1, move
    time 300 and servo 0 set to ID 5 and position 110 (0x006E): the high
    byte 0x04 of the position is the sixth payload byte, and only
    [rec_num - 2 = 5] bytes are copied to [resule_oj]. *)
Theorem example_frame_get_servos (sgn : bool) (dst : uHand_Servo) :
  ∃ d sv,
    receiveHandle sgn fresh example_frame = Ok (d, [example_result])
    ∧ get_servos d dst = Ok (true, with_success 0 d, sv)
    ∧ num sv = 1 ∧ time sv = 300
    ∧ servos sv = alter (λ _, {| ID := 5; Position := 110 |}) 0%nat (servos dst)
    ∧ ((0 < length (servos dst))%nat →
         servos sv !! 0%nat = Some {| ID := 5; Position := 110 |}).
Proof.
  destruct (example_frame_decoded sgn dst) as (d & Hrx & Hget).
  exists d. eexists. do 2 (split; [eassumption|]). simpl.
  do 3 (split; [done|]).
  intros Hl. destruct (servos dst); [simpl in Hl; lia | done].
Qed.

(** C2, as stated, fails: on no platform and for no destination does the
    example frame yield position 1134 for servo 0. *)
Lemma example_frame_position_not_1134 :
  ¬ ∃ sgn dst d fs d' sv,
      receiveHandle sgn fresh example_frame = Ok (d, fs)
      ∧ get_servos d dst = Ok (true, d', sv)
      ∧ num sv = 1 ∧ time sv = 300
      ∧ servos sv !! 0%nat = Some {| ID := 5; Position := 1134 |}.
Proof.
  intros (sgn & dst & d & fs & d' & sv & Hrx & Hget & _ & _ & Hs).
  destruct (example_frame_decoded sgn dst) as (d0 & Hrx0 & Hget0).
  rewrite Hrx in Hrx0. injection Hrx0 as -> _.
  rewrite Hget in Hget0. injection Hget0 as _ ->.
  simpl in Hs. destruct (servos dst); simpl in Hs; discriminate.
Qed.

(** ** Conversions of the received byte *)

Lemma u8_range (z : Z) : 0 ≤ u8 z < 256.
Proof. unfold u8. apply Z.mod_pos_bound. lia. Qed.

Lemma u8_small (z : Z) : 0 ≤ z < 256 → u8 z = z.
Proof. intros H. unfold u8. by apply Z.mod_small. Qed.

Lemma u8_u8 (z : Z) : u8 (u8 z) = u8 z.
Proof. apply u8_small, u8_range. Qed.

Lemma u8_to_char (sgn : bool) (b : Z) : u8 (to_char sgn b) = u8 b.
Proof.
  unfold to_char. pose proof (u8_range b) as Hb.
  destruct sgn; [|apply u8_u8].
  destruct (Z.ltb_spec (u8 b) 128); [apply u8_u8|].
  unfold u8 at 1.
  replace (u8 b - 256) with (u8 b + (-1) * 256) by lia.
  rewrite Z.mod_add by lia. apply u8_u8.
Qed.

Lemma to_char_range (sgn : bool) (b : Z) :
  if sgn then -128 ≤ to_char sgn b < 128 else 0 ≤ to_char sgn b < 256.
Proof.
  unfold to_char. pose proof (u8_range b) as Hb.
  destruct sgn; [|done]. destruct (Z.ltb_spec (u8 b) 128); lia.
Qed.

Lemma to_char_is_header (sgn : bool) (b : Z) :
  to_char sgn b = FRAME_HEADER ↔ u8 b = FRAME_HEADER.
Proof.
  unfold to_char, FRAME_HEADER. pose proof (u8_range b) as Hb.
  destruct sgn; [|done]. destruct (Z.ltb_spec (u8 b) 128); lia.
Qed.

(** On a byte, [rx > 0] holds from 1 to 127 and, where [char] is unsigned,
    from 128 to 255 as well. *)
Lemma to_char_positive (sgn : bool) (b : Z) :
  0 ≤ b < 256 → (0 < to_char sgn b ↔ 1 ≤ b ∧ (sgn = true → b < 128)).
Proof.
  intros Hb. unfold to_char. rewrite (u8_small b) by done.
  destruct sgn; [|intuition (discriminate || lia)].
  destruct (Z.ltb_spec b 128); intuition lia.
Qed.

(** The test [rx > 0 || rx < 128] of [case 1] never fails. *)
Lemma length_test_always_true (sgn : bool) (b : Z) :
  (0 <? to_char sgn b) || (to_char sgn b <? 128) = true.
Proof.
  pose proof (to_char_range sgn b) as H.
  destruct sgn.
  - apply orb_true_iff. right. apply Z.ltb_lt. lia.
  - destruct (Z.ltb_spec 0 (to_char false b)); [done|].
    apply Z.ltb_lt. lia.
Qed.

(** ** One byte in each state *)

Section Machine.
Variable char_signed : bool.

Lemma header_non_marker (d : blue_controller) (b : Z) :
  step d = 0 → u8 b ≠ FRAME_HEADER →
  rx_byte char_signed d b = Ok (with_head_count 0 d, []).
Proof.
  intros Hs Hb. unfold rx_byte. rewrite Hs. simpl.
  destruct (Z.eqb_spec (to_char char_signed b) FRAME_HEADER) as [E|_]; [|done].
  by apply to_char_is_header in E.
Qed.

Lemma header_first_marker (d : blue_controller) :
  step d = 0 → head_count d = 0 →
  rx_byte char_signed d FRAME_HEADER = Ok (with_head_count 1 d, []).
Proof.
  intros Hs Hh. unfold rx_byte. rewrite Hs.
  destruct d; simpl in *; subst. by destruct char_signed.
Qed.

Lemma header_second_marker (d : blue_controller) :
  step d = 0 → head_count d = 1 →
  rx_byte char_signed d FRAME_HEADER = Ok (with_step 1 (with_head_count 0 d), []).
Proof.
  intros Hs Hh. unfold rx_byte. rewrite Hs.
  destruct d; simpl in *; subst. by destruct char_signed.
Qed.

Lemma header_non_markers (d : blue_controller) (ns : list Z) :
  step d = 0 → Forall (λ b, u8 b ≠ FRAME_HEADER) ns →
  receiveHandle char_signed d ns = Ok (if ns is [] then d else with_head_count 0 d, []).
Proof.
  intros Hs Hns. revert d Hs.
  induction Hns as [|b ns Hb _ IH]; intros d Hs; [done|].
  simpl. rewrite header_non_marker by done. simpl.
  rewrite IH by done. by destruct ns.
Qed.

Lemma header_marker_pair (d : blue_controller) :
  step d = 0 → head_count d = 0 →
  receiveHandle char_signed d [FRAME_HEADER; FRAME_HEADER] = Ok (with_step 1 d, []).
Proof.
  intros Hs Hh. simpl. rewrite header_first_marker by done. simpl.
  rewrite header_second_marker by done. simpl.
  destruct d; simpl in *; by subst.
Qed.

Lemma length_byte (d : blue_controller) (b : Z) :
  step d = 1 →
  rx_byte char_signed d b
  = Ok (with_step 2 (with_rec_oj {| rec_num := u8 b; func := func (rec_oj d);
                                    buf := buf (rec_oj d) |} d), []).
Proof.
  intros Hs. unfold rx_byte. rewrite Hs. simpl.
  rewrite length_test_always_true, u8_to_char. by rewrite Hs.
Qed.

Lemma function_byte_accepted (d : blue_controller) (b : Z) :
  step d = 2 → 0 < to_char char_signed b →
  rx_byte char_signed d b
  = Ok (with_step 3 (with_rec_oj {| rec_num := rec_num (rec_oj d); func := u8 b;
                                    buf := buf (rec_oj d) |} d), []).
Proof.
  intros Hs Hb. unfold rx_byte. rewrite Hs. simpl.
  destruct (Z.ltb_spec 0 (to_char char_signed b)); [|lia].
  rewrite u8_to_char. by rewrite Hs.
Qed.

Lemma function_byte_rejected (d : blue_controller) (b : Z) :
  step d = 2 → to_char char_signed b ≤ 0 →
  rx_byte char_signed d b = Ok (with_step 0 d, []).
Proof.
  intros Hs Hb. unfold rx_byte. rewrite Hs. simpl.
  by destruct (Z.ltb_spec 0 (to_char char_signed b)); [lia|].
Qed.

(** ** The statics in every state the decoder reaches *)

Lemma rx_inv_fresh : rx_inv fresh.
Proof. unfold rx_inv, BUF_SIZE. simpl. lia. Qed.

Local Ltac close_inv :=
  simpl; repeat match goal with H : step _ = _ |- _ => rewrite H end;
  repeat match goal with
  | |- context [u8 (?a + 1)] => rewrite (u8_small (a + 1)) by lia
  end; lia.

Lemma rx_byte_inv (d d' : blue_controller) (b : Z) (fs : list blue_info) :
  rx_inv d → rx_byte char_signed d b = Ok (d', fs) → rx_inv d'.
Proof.
  unfold rx_inv, BUF_SIZE. intros (Hs & Hh & Hc & Hc0 & Hn) H.
  assert (step d = 0 ∨ step d = 1 ∨ step d = 2 ∨ step d = 3) as Hcase by lia.
  destruct Hcase as [E|[E|[E|E]]].
  - assert (data_count d = 0) as Hd by (apply Hc0; lia).
    unfold rx_byte in H. rewrite E in H. simpl in H.
    destruct (to_char char_signed b =? FRAME_HEADER).
    + destruct Hh as [Hh|[Hh _]]; rewrite Hh in H; simpl in H;
        injection H as <- _; close_inv.
    + injection H as <- _; close_inv.
  - rewrite length_byte in H by done. injection H as <- _. pose proof (u8_range b). close_inv.
  - assert (data_count d = 0) as Hd by (apply Hc0; lia).
    destruct (Z.ltb_spec 0 (to_char char_signed b)).
    + rewrite function_byte_accepted in H by done. injection H as <- _. close_inv.
    + rewrite function_byte_rejected in H by lia. injection H as <- _. close_inv.
  - unfold rx_byte in H. rewrite E in H. simpl in H.
    unfold buf_store, in_bounds, BUF_SIZE in H.
    destruct (Z.leb_spec 0 (data_count d)); [|lia].
    destruct (Z.ltb_spec (data_count d) 128); simpl in H; [|discriminate].
    rewrite (u8_small (data_count d + 1)) in H by lia.
    destruct (rec_num (rec_oj d) - 2 <? data_count d + 1).
    + destruct (memcpy _ _ _) in H; simpl in H; [|discriminate].
      injection H as <- _. close_inv.
    + injection H as <- _. close_inv.
Qed.

Lemma receiveHandle_inv (input : list Z) : ∀ d d' fs,
  rx_inv d → receiveHandle char_signed d input = Ok (d', fs) → rx_inv d'.
Proof.
  induction input as [|b rest IH]; intros d d' fs Hd H; simpl in H.
  - by injection H as <- _.
  - destruct (rx_byte char_signed d b) as [[d1 f1]|] eqn:E1; [|discriminate].
    simpl in H.
    destruct (receiveHandle char_signed d1 rest) as [[d2 f2]|] eqn:E2; [|discriminate].
    simpl in H. injection H as <- _.
    eapply IH; [|exact E2]. by eapply rx_byte_inv.
Qed.

(** The [default:] branch of the [switch] is never taken. *)
Lemma default_branch_unreachable (input : list Z) (d : blue_controller)
    (fs : list blue_info) :
  receiveHandle char_signed fresh input = Ok (d, fs) → serial_out d = [].
Proof.
  assert (∀ input d0 d fs, rx_inv d0 →
            receiveHandle char_signed d0 input = Ok (d, fs) →
            serial_out d = serial_out d0) as Hgen.
  { clear. intros input. induction input as [|b rest IH]; intros d0 d fs Hd H; simpl in H.
    - by injection H as <- _.
    - destruct (rx_byte char_signed d0 b) as [[d1 f1]|] eqn:E1; [|discriminate].
      simpl in H.
      destruct (receiveHandle char_signed d1 rest) as [[d2 f2]|] eqn:E2; [|discriminate].
      simpl in H. injection H as <- _.
      rewrite (IH _ _ _ (rx_byte_inv _ _ _ _ Hd E1) E2).
      destruct Hd as (Hs & _).
      unfold rx_byte in E1.
      repeat match type of E1 with
      | context [?a =? ?c] => destruct (Z.eqb_spec a c)
      | context [?a <? ?c] => destruct (Z.ltb_spec a c)
      | context [?a || ?c] => destruct (a || c)
      | context [buf_store ?a ?l ?i ?v] => destruct (buf_store a l i v)
      | context [memcpy ?a ?l ?i] => destruct (memcpy a l i)
      | _ => progress simpl in E1
      end; try discriminate; try lia; by injection E1 as <- _. }
  intros H. by rewrite (Hgen _ _ _ _ rx_inv_fresh H).
Qed.

(** ** Frame start *)

(** C5: in AWAIT_HEADER ([step = 0]) with no marker pending, one 0x55
    followed by bytes other than 0x55 leaves the decoder in AWAIT_HEADER
    after every byte, and the count of markers is back to zero after the
    first other byte; two 0x55 in a row move it to AWAIT_LENGTH
    ([step = 1]).  Whatever bytes were fed before, if they left the decoder
    in AWAIT_HEADER then a pair of 0x55 moves it to AWAIT_LENGTH: at the
    second 0x55 when no marker was pending, at the first when the byte fed
    last was itself an unpaired 0x55. *)
Theorem header_needs_two_markers :
  (∀ d ns pre,
     step d = 0 → head_count d = 0 →
     Forall (λ b, u8 b ≠ FRAME_HEADER) ns →
     pre `prefix_of` FRAME_HEADER :: ns →
     ∃ d', receiveHandle char_signed d pre = Ok (d', [])
           ∧ step d' = 0
           ∧ head_count d' = match pre with [_] => 1 | _ => 0 end)
  ∧ (∀ d, step d = 0 → head_count d = 0 →
       receiveHandle char_signed d [FRAME_HEADER; FRAME_HEADER]
       = Ok (with_step 1 d, []))
  ∧ (∀ garbage d fs,
       receiveHandle char_signed fresh garbage = Ok (d, fs) → step d = 0 →
       (head_count d = 0
        ∧ receiveHandle char_signed d [FRAME_HEADER; FRAME_HEADER]
          = Ok (with_step 1 d, []))
       ∨ (head_count d = 1
          ∧ rx_byte char_signed d FRAME_HEADER
            = Ok (with_step 1 (with_head_count 0 d), []))).
Proof.
  split; [|split].
  - intros d ns pre Hs Hh Hns [k Hk].
    destruct pre as [|x pre]; [by exists d|].
    simpl in Hk. injection Hk as <- ->.
    apply Forall_app in Hns as [Hpre _].
    simpl. rewrite header_first_marker by done. simpl.
    rewrite header_non_markers by done. simpl.
    destruct pre; eexists; (split; [reflexivity|]); by simpl.
  - apply header_marker_pair.
  - intros garbage d fs Hrx Hs.
    pose proof (receiveHandle_inv _ _ _ _ rx_inv_fresh Hrx) as (_ & Hh & _).
    destruct Hh as [Hh|[Hh _]]; [left|right]; (split; [done|]).
    + by apply header_marker_pair.
    + by apply header_second_marker.
Qed.

(** ** Collecting the payload *)

Lemma payload_byte_stored (d : blue_controller) (b : Z) :
  step d = 3 → 0 ≤ data_count d < BUF_SIZE →
  data_count d + 1 ≤ rec_num (rec_oj d) - 2 →
  rx_byte char_signed d b
  = Ok (collecting d (<[Z.to_nat (data_count d) := u8 b]> (buf (rec_oj d)))
                   (data_count d + 1), []).
Proof.
  unfold BUF_SIZE. intros Hs Hc Hn. unfold rx_byte. rewrite Hs. simpl.
  unfold buf_store, in_bounds, BUF_SIZE.
  destruct (Z.leb_spec 0 (data_count d)); [|lia].
  destruct (Z.ltb_spec (data_count d) 128); [|lia]. simpl.
  rewrite u8_to_char, (u8_small (data_count d + 1)) by lia.
  by destruct (Z.ltb_spec (rec_num (rec_oj d) - 2) (data_count d + 1)); [lia|].
Qed.

Lemma payload_byte_completes (d : blue_controller) (b : Z) :
  step d = 3 → 0 ≤ data_count d < BUF_SIZE →
  rec_num (rec_oj d) - 2 < data_count d + 1 →
  0 ≤ rec_num (rec_oj d) - 2 ≤ BUF_SIZE →
  let stored := <[Z.to_nat (data_count d) := u8 b]> (buf (rec_oj d)) in
  let k := Z.to_nat (rec_num (rec_oj d) - 2) in
  let copied := take k stored ++ drop k (buf (resule_oj d)) in
  rx_byte char_signed d b
  = Ok (published d stored copied,
        [{| rec_num := rec_num (rec_oj d); func := func (rec_oj d);
            buf := copied |}]).
Proof.
  unfold BUF_SIZE. intros Hs Hc Hn Hk. unfold rx_byte. rewrite Hs. simpl.
  unfold buf_store, in_bounds, BUF_SIZE.
  destruct (Z.leb_spec 0 (data_count d)); [|lia].
  destruct (Z.ltb_spec (data_count d) 128); [|lia]. simpl.
  rewrite u8_to_char, (u8_small (data_count d + 1)) by lia.
  destruct (Z.ltb_spec (rec_num (rec_oj d) - 2) (data_count d + 1)); [|lia].
  unfold memcpy, size_t_of_int, BUF_SIZE. change (2 ^ 16) with 65536.
  rewrite (Z.mod_small (rec_num (rec_oj d) - 2)) by lia.
  by destruct (Z.leb_spec (rec_num (rec_oj d) - 2) 128); [|lia].
Qed.

(** With a length byte of 0 or 1 the count given to [memcpy] is negative as
    an [int] and huge as a [size_t]. *)
Lemma payload_byte_underflow (d : blue_controller) (b : Z) :
  step d = 3 → 0 ≤ data_count d < BUF_SIZE →
  0 ≤ rec_num (rec_oj d) < 2 →
  rx_byte char_signed d b
  = Undefined (OobCopy (rec_num (rec_oj d) + 65534)).
Proof.
  unfold BUF_SIZE. intros Hs Hc Hn. unfold rx_byte. rewrite Hs. simpl.
  unfold buf_store, in_bounds, BUF_SIZE.
  destruct (Z.leb_spec 0 (data_count d)); [|lia].
  destruct (Z.ltb_spec (data_count d) 128); [|lia]. simpl.
  rewrite (u8_small (data_count d + 1)) by lia.
  destruct (Z.ltb_spec (rec_num (rec_oj d) - 2) (data_count d + 1)); [|lia].
  unfold memcpy, size_t_of_int, BUF_SIZE.
  replace ((rec_num (rec_oj d) - 2) `mod` 2 ^ 16)
    with (rec_num (rec_oj d) + 65534).
  - by destruct (Z.leb_spec (rec_num (rec_oj d) + 65534) 128); [lia|].
  - change (2 ^ 16) with 65536. apply Z.mod_unique with (-1); lia.
Qed.

(** Once [data_count] has reached the size of [buf], the next payload byte
    is written behind the array. *)
Lemma payload_byte_overrun (d : blue_controller) (b : Z) :
  step d = 3 → BUF_SIZE ≤ data_count d →
  rx_byte char_signed d b = Undefined (OobWrite RecBuf (data_count d)).
Proof.
  unfold BUF_SIZE. intros Hs Hc. unfold rx_byte. rewrite Hs. simpl.
  unfold buf_store, in_bounds, BUF_SIZE.
  destruct (Z.ltb_spec (data_count d) 128); [lia|].
  by rewrite andb_false_r.
Qed.

Lemma collecting_id (d : blue_controller) :
  collecting d (buf (rec_oj d)) (data_count d) = d.
Proof. by destruct d as [[] ? ? ? ? ? ?]. Qed.

Lemma payload_collected (p : list Z) : ∀ d,
  step d = 3 → 0 ≤ data_count d →
  data_count d + Z.of_nat (length p) ≤ rec_num (rec_oj d) - 2 →
  data_count d + Z.of_nat (length p) ≤ BUF_SIZE →
  receiveHandle char_signed d p
  = Ok (collecting d
          (list_inserts (Z.to_nat (data_count d)) (u8 <$> p) (buf (rec_oj d)))
          (data_count d + Z.of_nat (length p)), []).
Proof.
  unfold BUF_SIZE.
  induction p as [|b p IH]; intros d Hs Hc Hn Hk.
  - simpl. rewrite Z.add_0_r. by rewrite collecting_id.
  - change (length (b :: p)) with (S (length p)) in *.
    rewrite Nat2Z.inj_succ in *.
    change (receiveHandle char_signed d (b :: p))
      with ('(d1, f1) ← rx_byte char_signed d b;
            '(d2, f2) ← receiveHandle char_signed d1 p; Ok (d2, f1 ++ f2)).
    rewrite payload_byte_stored by (unfold BUF_SIZE; lia).
    simpl. rewrite IH by (simpl; lia). simpl.
    do 2 f_equal. unfold collecting. simpl.
    replace (Z.to_nat (data_count d + 1)) with (S (Z.to_nat (data_count d))) by lia.
    rewrite <- list_insert_inserts_lt by lia.
    unfold with_data_count, with_rec_oj. simpl. f_equal. lia.
Qed.

(** ** A whole frame *)

Lemma frame_prelude (d : blue_controller) (n f : Z) :
  step d = 0 → head_count d = 0 → 0 < to_char char_signed f →
  receiveHandle char_signed d [FRAME_HEADER; FRAME_HEADER; n; f]
  = Ok (awaiting_payload d (u8 n) (u8 f), []).
Proof.
  intros Hs Hh Hf.
  change [FRAME_HEADER; FRAME_HEADER; n; f]
    with ([FRAME_HEADER; FRAME_HEADER] ++ [n; f]).
  rewrite receiveHandle_app, header_marker_pair by done. simpl.
  rewrite length_byte by done. simpl.
  rewrite function_byte_accepted by done. simpl.
  by destruct d.
Qed.

Lemma frame_payload_prefix (d : blue_controller) (n f : Z) (pre : list Z) :
  step d = 0 → head_count d = 0 → data_count d = 0 →
  0 < to_char char_signed f →
  Z.of_nat (length pre) ≤ u8 n - 2 → Z.of_nat (length pre) ≤ BUF_SIZE →
  receiveHandle char_signed d ([FRAME_HEADER; FRAME_HEADER; n; f] ++ pre)
  = Ok (collecting (awaiting_payload d (u8 n) (u8 f))
          (list_inserts 0 (u8 <$> pre) (buf (rec_oj d)))
          (Z.of_nat (length pre)), []).
Proof.
  intros Hs Hh Hc Hf Hn Hk.
  rewrite receiveHandle_app, frame_prelude by done. simpl.
  rewrite payload_collected; simpl; rewrite ?Hc; try done; lia.
Qed.

Lemma inserts_take (k l : list Z) :
  (length k ≤ length l)%nat → take (length k) (list_inserts 0 k l) = k.
Proof.
  intros Hl. rewrite <- (take_drop (length k) l) at 1.
  rewrite list_inserts_0_r by (rewrite length_take; lia).
  apply take_app_length.
Qed.

(** C3, as the code has it: for a frame whose length byte [n] is between 2
    and 129 and whose function code is accepted, the decoder, started with
    no frame in progress, stays in AWAIT_PAYLOAD without publishing
    anything while the count of payload bytes collected is at most [n - 2],
    and publishes the frame at the byte that makes the count exceed
    [n - 2]; [memcpy] then stores exactly the first [n - 2] payload bytes in
    [resule_oj.buf], whose other bytes keep their old values. *)
Theorem frame_completion (d : blue_controller) (n f : Z)
    (payload : list Z) (last : Z) :
  step d = 0 → head_count d = 0 → data_count d = 0 →
  length (buf (rec_oj d)) = Z.to_nat BUF_SIZE →
  2 ≤ n ≤ 129 → 0 < to_char char_signed f →
  Z.of_nat (length payload) = n - 2 →
  (∀ pre, pre `prefix_of` payload →
     ∃ d1, receiveHandle char_signed d
             ([FRAME_HEADER; FRAME_HEADER; n; f] ++ pre) = Ok (d1, [])
           ∧ step d1 = 3 ∧ data_count d1 = Z.of_nat (length pre)
           ∧ success d1 = success d ∧ resule_oj d1 = resule_oj d)
  ∧ ∃ d2,
      let res := {| rec_num := n; func := u8 f;
                    buf := (u8 <$> payload)
                           ++ drop (Z.to_nat (n - 2)) (buf (resule_oj d)) |} in
      receiveHandle char_signed d
        ([FRAME_HEADER; FRAME_HEADER; n; f] ++ payload ++ [last])
      = Ok (d2, [res])
      ∧ resule_oj d2 = res ∧ success d2 = 1 ∧ step d2 = 0 ∧ data_count d2 = 0
      ∧ length (u8 <$> payload) = Z.to_nat (n - 2).
Proof.
  unfold BUF_SIZE. intros Hs Hh Hc Hlen Hn Hf Hp.
  assert (u8 n = n) as Hu by (apply u8_small; lia).
  split.
  - intros pre [k ->]. rewrite length_app, Nat2Z.inj_add in Hp.
    eexists. split;
      [apply frame_payload_prefix; unfold BUF_SIZE; try done; lia | done].
  - eexists. cbv zeta.
    rewrite (app_assoc _ payload [last]), receiveHandle_app.
    rewrite frame_payload_prefix by (unfold BUF_SIZE; try done; lia). simpl.
    rewrite payload_byte_completes by (unfold BUF_SIZE; simpl; lia).
    cbv zeta. simpl. rewrite Hu, Hp.
    replace (Z.to_nat (n - 2)) with (length (u8 <$> payload))
      by (rewrite length_fmap; lia).
    rewrite take_insert_ge, inserts_take by (rewrite ?length_fmap; lia).
    rewrite length_fmap. by replace (Z.to_nat (n - 2)) with (length payload) by lia.
Qed.

(** ** The function code *)

(** C6, as the code has it: in AWAIT_FUNCTION ([step = 2]) the byte is
    tested as [rx > 0] on a [char].  The byte 0 aborts the frame and the
    decoder is back in AWAIT_HEADER with nothing else changed; the bytes 1
    to 127 are stored as function code and the decoder moves to
    AWAIT_PAYLOAD; the bytes 128 to 255 are stored where [char] is
    unsigned, and abort the frame like 0 where [char] is signed, since they
    are negative there. *)
Theorem function_code_byte (d : blue_controller) (b : Z) :
  step d = 2 → 0 ≤ b < 256 →
  rx_byte char_signed d b
  = if (1 <=? b) && (negb char_signed || (b <? 128))
    then Ok (with_step 3
               (with_rec_oj {| rec_num := rec_num (rec_oj d); func := b;
                               buf := buf (rec_oj d) |} d), [])
    else Ok (with_step 0 d, []).
Proof.
  intros Hs Hb. pose proof (to_char_positive char_signed b Hb) as Hpos.
  destruct ((1 <=? b) && (negb char_signed || (b <? 128))) eqn:Ec.
  - apply andb_true_iff in Ec as [E1 E2]. apply Z.leb_le in E1.
    rewrite function_byte_accepted, u8_small; try done.
    apply Hpos. split; [done|]. intros Ht. rewrite Ht in E2.
    by apply Z.ltb_lt.
  - apply function_byte_rejected; [done|].
    destruct (Z.lt_ge_cases 0 (to_char char_signed b)) as [Hp|Hp]; [|lia].
    apply Hpos in Hp as [Hp1 Hp2]. exfalso.
    apply andb_false_iff in Ec as [Ec|Ec]; [apply Z.leb_gt in Ec; lia|].
    apply orb_false_iff in Ec as [Ec1 Ec2].
    apply negb_false_iff in Ec1. apply Z.ltb_ge in Ec2.
    specialize (Hp2 Ec1). lia.
Qed.

(** ** A frame without payload *)

(** C7 on the code: after the header, the length byte 2 and an accepted
    function code, the decoder is in AWAIT_PAYLOAD and has published
    nothing, so that [get_servos] finds no frame when none was ready
    before.  The frame is published by the next byte, whatever it is; no
    payload byte is copied, and [get_servos] then returns [false] for a
    function code other than [CMD_SERVO_MOVE]. *)
Theorem length_two_frame_waits_for_a_byte (d : blue_controller) (f : Z) :
  step d = 0 → head_count d = 0 → data_count d = 0 →
  0 < to_char char_signed f →
  ∃ d1,
    receiveHandle char_signed d [FRAME_HEADER; FRAME_HEADER; 2; f] = Ok (d1, [])
    ∧ step d1 = 3 ∧ success d1 = success d ∧ resule_oj d1 = resule_oj d
    ∧ (∀ dst, success d = 0 → get_servos d1 dst = Ok (false, d1, dst))
    ∧ ∀ b, ∃ d2,
        rx_byte char_signed d1 b
        = Ok (d2, [{| rec_num := 2; func := u8 f; buf := buf (resule_oj d) |}])
        ∧ step d2 = 0 ∧ success d2 = 1
        ∧ ∀ dst, u8 f ≠ CMD_SERVO_MOVE →
            ∃ d3, get_servos d2 dst = Ok (false, d3, dst).
Proof.
  intros Hs Hh Hc Hf. eexists. split; [by apply frame_prelude|].
  change (u8 2) with 2.
  do 3 (split; [done|]). split.
  - intros dst H0. unfold get_servos. simpl. by rewrite H0.
  - intros b. eexists. split; [|split; [|split]].
    + rewrite payload_byte_completes by (unfold BUF_SIZE; simpl; rewrite ?Hc; lia).
      cbv zeta. simpl. reflexivity.
    + done.
    + done.
    + intros dst Hne. unfold get_servos. simpl.
      destruct (Z.eqb_spec (u8 f) CMD_SERVO_MOVE); [done|]. by eexists.
Qed.

(** ** A frame longer than the buffer *)

(** C8 on the code: no length byte is rejected, so for a length byte from
    130 on the decoder keeps collecting, and the 129th payload byte is
    written to [rec_oj.buf[128]], behind the array. *)
Theorem long_frame_overruns_buf (d : blue_controller) (n f : Z)
    (payload : list Z) :
  step d = 0 → head_count d = 0 → data_count d = 0 →
  130 ≤ n ≤ 255 → 0 < to_char char_signed f →
  length payload = 129%nat →
  receiveHandle char_signed d ([FRAME_HEADER; FRAME_HEADER; n; f] ++ payload)
  = Undefined (OobWrite RecBuf 128).
Proof.
  intros Hs Hh Hc Hn Hf Hp.
  assert (u8 n = n) as Hu by (apply u8_small; lia).
  rewrite <- (take_drop 128 payload).
  assert (length (take 128 payload) = 128%nat) as Ht by (rewrite length_take; lia).
  destruct (drop 128 payload) as [|x [|? ?]] eqn:Hd;
    pose proof (length_drop payload 128) as Hl; rewrite Hd, Hp in Hl;
    try discriminate.
  rewrite app_assoc, receiveHandle_app.
  rewrite frame_payload_prefix by (unfold BUF_SIZE; try done; lia).
  simpl. rewrite payload_byte_overrun by (unfold BUF_SIZE; simpl; lia).
  simpl. by rewrite Ht.
Qed.

End Machine.

(** ** [get_servos] *)

Lemma get_servos_not_ready (d : blue_controller) (dst : uHand_Servo) :
  success d = 0 → get_servos d dst = Ok (false, d, dst).
Proof. intros H. unfold get_servos. by rewrite H. Qed.

Lemma get_servos_other_function (d : blue_controller) (dst : uHand_Servo) :
  success d ≠ 0 → func (resule_oj d) ≠ CMD_SERVO_MOVE →
  get_servos d dst
  = Ok (false, println (FuncLine (func (resule_oj d))) (with_success 0 d), dst).
Proof.
  intros Hs Hf. unfold get_servos.
  destruct (Z.eqb_spec (success d) 0); [done|]. simpl.
  by destruct (Z.eqb_spec (func (resule_oj d)) CMD_SERVO_MOVE).
Qed.

Lemma servo_loop_within (src : list Z) (n : nat) : ∀ (i : nat) out,
  (i + n ≤ Z.to_nat SERVO_SLOTS)%nat →
  servo_loop n (Z.of_nat i) src out
  = Ok (list_inserts i (decoded_servo src <$> seq i n) out).
Proof.
  unfold SERVO_SLOTS.
  induction n as [|n IH]; intros i out Hi; [done|].
  simpl. unfold buf_load, servo_store, in_bounds, BUF_SIZE, SERVO_SLOTS.
  repeat match goal with
  | |- context [?a <=? ?b] => destruct (Z.leb_spec a b); [|lia]
  | |- context [?a <? ?b] => destruct (Z.ltb_spec a b); [|lia]
  | _ => progress simpl
  end.
  rewrite alter_ID_Position, <- list_insert_alter, Nat2Z.id.
  replace (Z.of_nat i + 1) with (Z.of_nat (S i)) by lia.
  rewrite IH by lia. f_equal.
  symmetry. apply list_insert_inserts_lt. lia.
Qed.

Lemma servo_loop_beyond (src : list Z) (n : nat) (out : list LobotServo) :
  servo_loop (S n) SERVO_SLOTS src out = Undefined (OobWrite ServoSlots SERVO_SLOTS).
Proof. reflexivity. Qed.

Lemma servo_loop_add (src : list Z) (n m : nat) : ∀ (i : Z) out,
  servo_loop (n + m) i src out
  = servo_loop n i src out ≫= servo_loop m (i + Z.of_nat n) src.
Proof.
  induction n as [|n IH]; intros i out.
  - simpl. by rewrite Z.add_0_r.
  - change (S n + m)%nat with (S (n + m)).
    cbn [servo_loop].
    destruct (buf_load ResultBuf src (i * 3 + 3)); [|done]; simpl.
    destruct (servo_store _ out i); [|done]; simpl.
    destruct (buf_load ResultBuf src (i * 3 + 5)); [|done]; simpl.
    destruct (buf_load ResultBuf src (i * 3 + 4)); [|done]; simpl.
    destruct (servo_store _ _ i); [|done]; simpl.
    rewrite IH. by replace (i + 1 + Z.of_nat n) with (i + Z.of_nat (S n)) by lia.
Qed.

Lemma get_servos_servo_move (d : blue_controller) (dst : uHand_Servo) :
  success d ≠ 0 → func (resule_oj d) = CMD_SERVO_MOVE →
  let src := buf (resule_oj d) in
  get_servos d dst
  = sv ← servo_loop (Z.to_nat (default 0 (src !! 0%nat))) 0 src (servos dst);
    Ok (true, with_success 0 d,
        {| num := default 0 (src !! 0%nat);
           time := le16 (default 0 (src !! 2%nat)) (default 0 (src !! 1%nat));
           servos := sv |}).
Proof.
  intros Hs Hf. unfold get_servos.
  destruct (Z.eqb_spec (success d) 0); [done|]. simpl.
  by rewrite Hf.
Qed.

(** A servo count above 6 makes the loop write to [servos[6]]. *)
Lemma get_servos_beyond_capacity (d : blue_controller) (dst : uHand_Servo) :
  success d ≠ 0 → func (resule_oj d) = CMD_SERVO_MOVE →
  SERVO_SLOTS < default 0 (buf (resule_oj d) !! 0%nat) →
  get_servos d dst = Undefined (OobWrite ServoSlots SERVO_SLOTS).
Proof.
  unfold SERVO_SLOTS. intros Hs Hf Hk.
  rewrite get_servos_servo_move by done. cbv zeta.
  set (k := default 0 (buf (resule_oj d) !! 0%nat)) in *.
  replace (Z.to_nat k) with (6 + S (Z.to_nat k - 7))%nat by lia.
  rewrite servo_loop_add.
  rewrite (servo_loop_within _ 6 0) by (unfold SERVO_SLOTS; lia).
  simpl. reflexivity.
Qed.

Lemma get_servos_loop_within (d : blue_controller) (dst : uHand_Servo) :
  success d ≠ 0 → func (resule_oj d) = CMD_SERVO_MOVE →
  let src := buf (resule_oj d) in
  let k := default 0 (src !! 0%nat) in
  0 ≤ k ≤ SERVO_SLOTS →
  get_servos d dst
  = Ok (true, with_success 0 d,
        {| num := k;
           time := le16 (default 0 (src !! 2%nat)) (default 0 (src !! 1%nat));
           servos := list_inserts 0 (decoded_servo src <$> seq 0 (Z.to_nat k))
                                  (servos dst) |}).
Proof.
  intros Hs Hf src k Hk. unfold SERVO_SLOTS in Hk.
  rewrite get_servos_servo_move by done. cbv zeta. fold src k.
  by rewrite (servo_loop_within src (Z.to_nat k) 0)
    by (unfold SERVO_SLOTS; lia).
Qed.

(** C9, as the code has it: for a ready servo-move frame whose servo count
    [payload[0]] is at most 6, [get_servos] returns [true] and has written
    the count, the move time and the targets 0 to count - 1, each inside
    the six slots of the destination, which keeps its other slots.  The
    code compares the count with nothing. *)
Theorem get_servos_within_capacity (d : blue_controller) (dst : uHand_Servo) :
  success d ≠ 0 → func (resule_oj d) = CMD_SERVO_MOVE →
  let src := buf (resule_oj d) in
  let k := default 0 (src !! 0%nat) in
  0 ≤ k ≤ SERVO_SLOTS →
  let sv := list_inserts 0 (decoded_servo src <$> seq 0 (Z.to_nat k)) (servos dst) in
  get_servos d dst
  = Ok (true, with_success 0 d,
        {| num := k;
           time := le16 (default 0 (src !! 2%nat)) (default 0 (src !! 1%nat));
           servos := sv |})
  ∧ length sv = length (servos dst)
  ∧ (∀ j, (Z.to_nat k ≤ j)%nat → sv !! j = servos dst !! j)
  ∧ (∀ j, (j < Z.to_nat k)%nat → (j < length (servos dst))%nat →
       (j < Z.to_nat SERVO_SLOTS)%nat ∧ sv !! j = Some (decoded_servo src j)).
Proof.
  intros Hs Hf src k Hk sv. unfold SERVO_SLOTS in *.
  split; [|split; [|split]].
  - by apply get_servos_loop_within.
  - apply length_inserts.
  - intros j Hj. apply list_lookup_inserts_ge.
    rewrite length_fmap, length_seq. lia.
  - intros j Hj Hl. split; [lia|].
    unfold sv. rewrite list_lookup_inserts
      by (rewrite ?length_fmap, ?length_seq; lia).
    rewrite list_lookup_fmap, Nat.sub_0_r, lookup_seq_lt by done. done.
Qed.

(** C10: [get_servos] returns [false] with the destination as it was, both
    when no frame is ready and when the ready frame has another function
    code than [CMD_SERVO_MOVE]; and whenever it returns [false] it is in
    one of these two cases and the destination is as it was. *)
Theorem get_servos_false_keeps_destination (d : blue_controller)
    (dst : uHand_Servo) :
  (success d = 0 → get_servos d dst = Ok (false, d, dst))
  ∧ (success d ≠ 0 → func (resule_oj d) ≠ CMD_SERVO_MOVE →
       get_servos d dst
       = Ok (false, println (FuncLine (func (resule_oj d))) (with_success 0 d),
             dst))
  ∧ (∀ d' dst', get_servos d dst = Ok (false, d', dst') →
       dst' = dst
       ∧ (success d = 0 ∨ func (resule_oj d) ≠ CMD_SERVO_MOVE)).
Proof.
  split; [apply get_servos_not_ready|].
  split; [apply get_servos_other_function|].
  intros d' dst' H.
  destruct (Z.eq_dec (success d) 0) as [E|E].
  - rewrite get_servos_not_ready in H by done. injection H as _ <-. auto.
  - destruct (Z.eq_dec (func (resule_oj d)) CMD_SERVO_MOVE) as [F|F].
    + rewrite get_servos_servo_move in H by done. cbv zeta in H.
      destruct (servo_loop _ _ _ _) in H; simpl in H; discriminate.
    + rewrite get_servos_other_function in H by done. injection H as _ <-. auto.
Qed.

(** C4, as the code has it: with no frame ready [get_servos] returns [false]
    and the decoder and the destination are as they were.  Whenever [get_servos] returns, the
    flag [success] is clear afterwards and a second call returns [false]
    and changes nothing: a frame is consumed at most once.  With a
    servo-move frame ready the first call cannot return [false]; it
    returns [true], and the second call [false], when the servo count of
    the frame is within the six slots of the destination. *)
Theorem get_servos_consumes_once (d : blue_controller) (dst : uHand_Servo) :
  (success d = 0 → get_servos d dst = Ok (false, d, dst))
  ∧ (∀ r d1 dst1, get_servos d dst = Ok (r, d1, dst1) →
       success d1 = 0 ∧ get_servos d1 dst1 = Ok (false, d1, dst1))
  ∧ (success d ≠ 0 → func (resule_oj d) = CMD_SERVO_MOVE →
     (∀ r d1 dst1, get_servos d dst = Ok (r, d1, dst1) → r = true)
     ∧ (0 ≤ default 0 (buf (resule_oj d) !! 0%nat) ≤ SERVO_SLOTS →
        ∃ d1 dst1, get_servos d dst = Ok (true, d1, dst1)
                   ∧ get_servos d1 dst1 = Ok (false, d1, dst1))).
Proof.
  assert (∀ r d1 dst1, get_servos d dst = Ok (r, d1, dst1) → success d1 = 0)
    as Hclear.
  { intros r d1 dst1 H.
    destruct (Z.eq_dec (success d) 0) as [E|E].
    - rewrite get_servos_not_ready in H by done. by injection H as _ <- _.
    - destruct (Z.eq_dec (func (resule_oj d)) CMD_SERVO_MOVE) as [F|F].
      + rewrite get_servos_servo_move in H by done. cbv zeta in H.
        destruct (servo_loop _ _ _ _) in H; simpl in H; [|discriminate].
        by injection H as _ <- _.
      + rewrite get_servos_other_function in H by done. by injection H as _ <- _. }
  split; [apply get_servos_not_ready|]. split.
  - intros r d1 dst1 H. pose proof (Hclear _ _ _ H) as H0.
    split; [done | by apply get_servos_not_ready].
  - intros Hs Hf. split.
    + intros r d1 dst1 H.
      rewrite get_servos_servo_move in H by done. cbv zeta in H.
      destruct (servo_loop _ _ _ _) in H; simpl in H; [|discriminate].
      by injection H as <- _ _.
    + intros Hk. do 2 eexists. split; [by apply get_servos_loop_within|].
      by apply get_servos_not_ready.
Qed.

(** * Concrete runs *)

(** C3 at the example frame: length byte 7, five payload bytes published. *)
Lemma frame_completion_witness :
  ∃ d2, receiveHandle true fresh example_frame = Ok (d2, [example_result])
        ∧ resule_oj d2 = example_result ∧ success d2 = 1 ∧ step d2 = 0.
Proof.
  destruct (frame_completion true fresh 7 3 [1; 0x2C; 1; 5; 0x6E] 4)
    as (_ & d2 & Hrx & Hres & Hs & Hst & _);
    [reflexivity | reflexivity | reflexivity | reflexivity | lia
    | reflexivity | reflexivity |].
  exists d2. split; [exact Hrx|]. split; [exact Hres|]. split; assumption.
Defined.

(** C3, as stated, fails for the length byte 0, which [case 1] accepts:
    the first payload byte completes the frame and [memcpy] is called with
    the count [(size_t)(-2)]. *)
Lemma length_zero_frame_underflows :
  ∃ d, receiveHandle true fresh [0x55; 0x55; 0x00; 0x03] = Ok (d, [])
       ∧ step d = 3 ∧ rec_num (rec_oj d) = 0 ∧ func (rec_oj d) = 3
       ∧ rx_byte true d 0xAA = Undefined (OobCopy 65534).
Proof. eexists. split; [vm_compute; reflexivity|]. by vm_compute. Qed.

(** C4 at the example frame. *)
Lemma get_servos_consumes_once_witness :
  ∃ d d1 dst1,
    receiveHandle true fresh example_frame = Ok (d, [example_result])
    ∧ get_servos d empty_servos = Ok (true, d1, dst1)
    ∧ get_servos d1 dst1 = Ok (false, d1, dst1)
    ∧ get_servos fresh empty_servos = Ok (false, fresh, empty_servos).
Proof.
  destruct (example_frame_received true) as (d & Hrx & Hres & Hs & _).
  destruct (get_servos_consumes_once d empty_servos) as (_ & _ & H3).
  destruct H3 as (_ & H3).
  - rewrite Hs. discriminate.
  - rewrite Hres. reflexivity.
  - destruct H3 as (d1 & dst1 & H1 & H2).
    { rewrite Hres. unfold SERVO_SLOTS. simpl. lia. }
    exists d, d1, dst1. split; [exact Hrx|]. split; [exact H1|].
    split; [exact H2|].
    apply (get_servos_consumes_once fresh empty_servos). reflexivity.
Defined.

(** C4, as stated, fails for a servo-move frame with a servo count of 7:
    after [0x55 0x55 0x03 0x03 0x07 0x00] has completed, the first call of
    [get_servos] does not return the data-available result; there is no
    result at all, the call runs into the write to [servos[6]]. *)
Lemma servo_move_frame_of_seven_yields_no_data :
  ∃ d res,
    receiveHandle true fresh [0x55; 0x55; 0x03; 0x03; 0x07; 0x00] = Ok (d, [res])
    ∧ func res = CMD_SERVO_MOVE ∧ success d = 1
    ∧ ¬ ∃ d1 dst1, get_servos d empty_servos = Ok (true, d1, dst1).
Proof.
  do 2 eexists. split; [vm_compute; reflexivity|].
  split; [reflexivity|]. split; [reflexivity|].
  intros (d1 & dst1 & H). vm_compute in H. discriminate H.
Qed.

(** C5 on a fresh decoder: 0x55 0x01 0x02 starts no frame, 0x55 0x55 does,
    also after the garbage 0x01 0x55 0x02. *)
Lemma header_needs_two_markers_witness :
  (∃ d, receiveHandle true fresh [0x55; 0x01; 0x02] = Ok (d, []) ∧ step d = 0
        ∧ head_count d = 0)
  ∧ receiveHandle true fresh [0x55; 0x55] = Ok (with_step 1 fresh, [])
  ∧ ∃ d, receiveHandle true fresh [0x01; 0x55; 0x02] = Ok (d, [])
         ∧ receiveHandle true d [0x55; 0x55] = Ok (with_step 1 d, []).
Proof.
  destruct (header_needs_two_markers true) as (H1 & H2 & H3).
  split; [|split].
  - apply (H1 fresh [0x01; 0x02] [0x55; 0x01; 0x02]);
      [reflexivity | reflexivity | | exists []; reflexivity].
    repeat constructor; vm_compute; discriminate.
  - apply H2; reflexivity.
  - eexists. split; [vm_compute; reflexivity|].
    match goal with |- receiveHandle true ?d _ = _ =>
      destruct (H3 [0x01; 0x55; 0x02] d []) as [[_ H]|[H _]]
    end; [vm_compute; reflexivity | reflexivity | exact H | discriminate H].
Defined.

(** C6 at the function code 0x03 after the header and a length byte. *)
Lemma function_code_byte_witness :
  ∃ d, receiveHandle true fresh [0x55; 0x55; 0x07] = Ok (d, [])
       ∧ ∃ d', rx_byte true d 0x03 = Ok (d', [])
               ∧ step d' = 3 ∧ func (rec_oj d') = 3.
Proof.
  eexists. split; [vm_compute; reflexivity|].
  eexists. split;
    [match goal with |- rx_byte true ?d 3 = _ =>
       rewrite (function_code_byte true d 3); [reflexivity | reflexivity | lia]
     end
    | split; reflexivity].
Defined.

(** C6, as stated, fails where [char] is signed: the function code 0x80 is
    negative as a [char], fails [rx > 0] and aborts the frame. *)
Lemma function_code_0x80_rejected_signed_char :
  ∃ d, receiveHandle true fresh [0x55; 0x55; 0x07] = Ok (d, [])
       ∧ step d = 2
       ∧ rx_byte true d 0x80 = Ok (with_step 0 d, [])
       ∧ ¬ ∃ d', rx_byte true d 0x80 = Ok (d', [])
                 ∧ step d' = 3 ∧ func (rec_oj d') = 0x80.
Proof.
  eexists. split; [vm_compute; reflexivity|].
  split; [reflexivity|]. split; [vm_compute; reflexivity|].
  intros (d' & H & Hs & _). vm_compute in H. injection H as <-.
  discriminate Hs.
Qed.

(** C7 at [0x55 0x55 0x02 0x06] on a fresh decoder: nothing is published
    until a fifth byte arrives. *)
Lemma length_two_frame_waits_for_a_byte_witness :
  ∃ d1, receiveHandle true fresh [0x55; 0x55; 0x02; CMD_ACTION_GROUP_RUN]
        = Ok (d1, [])
        ∧ step d1 = 3 ∧ success d1 = 0
        ∧ get_servos d1 empty_servos = Ok (false, d1, empty_servos).
Proof.
  destruct (length_two_frame_waits_for_a_byte true fresh CMD_ACTION_GROUP_RUN)
    as (d1 & Hrx & Hs & Hsucc & _ & Hget & _);
    [reflexivity | reflexivity | reflexivity | reflexivity |].
  exists d1. split; [exact Hrx|]. split; [exact Hs|]. split; [exact Hsucc|].
  apply Hget. reflexivity.
Defined.

(** C8 at the length byte 0xFF followed by 129 payload bytes. *)
Lemma long_frame_overruns_buf_witness :
  receiveHandle true fresh
    ([0x55; 0x55; 0xFF; CMD_SERVO_MOVE] ++ replicate 129 0xAA)
  = Undefined (OobWrite RecBuf 128).
Proof.
  apply (long_frame_overruns_buf true fresh 0xFF CMD_SERVO_MOVE
           (replicate 129 0xAA));
    [reflexivity | reflexivity | reflexivity | lia | reflexivity | reflexivity].
Defined.

(** C9 at the example frame: one target, written to slot 0. *)
Lemma get_servos_within_capacity_witness :
  ∃ d, receiveHandle true fresh example_frame = Ok (d, [example_result])
       ∧ get_servos d empty_servos
         = Ok (true, with_success 0 d,
               {| num := 1; time := 300;
                  servos := {| ID := 5; Position := 110 |}
                            :: replicate 5 {| ID := 0; Position := 0 |} |}).
Proof.
  destruct (example_frame_received true) as (d & Hrx & Hres & Hs & _).
  exists d. split; [exact Hrx|].
  destruct (get_servos_within_capacity d empty_servos) as (H & _).
  - rewrite Hs. discriminate.
  - rewrite Hres. reflexivity.
  - rewrite Hres. unfold SERVO_SLOTS. simpl. lia.
  - rewrite H, Hres. reflexivity.
Defined.

(** C9, as stated, fails for a servo count of 7: the frame
    [0x55 0x55 0x03 0x03 0x07 0x00] is published with [payload[0] = 7], and
    [get_servos] neither stays inside the six slots nor reports an error:
    it writes to [servos[6]]. *)
Lemma servo_count_seven_writes_slot_six :
  ∃ d res,
    receiveHandle true fresh [0x55; 0x55; 0x03; 0x03; 0x07; 0x00] = Ok (d, [res])
    ∧ func res = CMD_SERVO_MOVE ∧ buf res !! 0%nat = Some 7
    ∧ get_servos d empty_servos = Undefined (OobWrite ServoSlots 6).
Proof.
  do 2 eexists. split; [vm_compute; reflexivity|].
  split; [reflexivity|]. split; [reflexivity|]. by vm_compute.
Qed.

(** C10 on a fresh decoder and on a ready action-group frame. *)
Lemma get_servos_false_keeps_destination_witness :
  get_servos fresh empty_servos = Ok (false, fresh, empty_servos)
  ∧ ∃ d d', receiveHandle true fresh [0x55; 0x55; 0x03; 0x06; 0x01; 0x00]
            = Ok (d, [{| rec_num := 3; func := 6; buf := 1 :: replicate 127 0 |}])
            ∧ get_servos d empty_servos = Ok (false, d', empty_servos)
            ∧ serial_out d' = [FuncLine 6].
Proof.
  split.
  - apply (get_servos_false_keeps_destination fresh empty_servos). reflexivity.
  - eexists. eexists. split; [vm_compute; reflexivity|].
    match goal with |- get_servos ?d _ = _ ∧ _ =>
      destruct (get_servos_false_keeps_destination d empty_servos) as (_ & H & _)
    end.
    rewrite H; [split; reflexivity | discriminate | discriminate].
Defined.

(** * Further properties of the decoder *)

(** ** The constructor and the result slot *)

Section ResultSlot.
Variable char_signed : bool.

Lemma rx_byte_result_slot (d d' : blue_controller) (b : Z) (fs : list blue_info) :
  rx_byte char_signed d b = Ok (d', fs) →
  (fs = [] ∧ success d' = success d ∧ resule_oj d' = resule_oj d)
  ∨ (∃ fr, fs = [fr] ∧ success d' = 1 ∧ resule_oj d' = fr).
Proof.
  unfold rx_byte. intros H.
  repeat match type of H with
  | context [?a =? ?c] => destruct (a =? c)
  | context [?a <? ?c] => destruct (a <? c)
  | context [?a || ?c] => destruct (a || c)
  | context [buf_store ?a ?l ?i ?v] => destruct (buf_store a l i v)
  | context [memcpy ?a ?l ?i] => destruct (memcpy a l i)
  | _ => progress simpl in H
  end; try discriminate; injection H as <- <-; simpl; eauto.
Qed.

Lemma receiveHandle_result_slot (input : list Z) :
  ∀ d d' fs, receiveHandle char_signed d input = Ok (d', fs) →
  match last fs with
  | Some fr => success d' = 1 ∧ resule_oj d' = fr
  | None => fs = [] ∧ success d' = success d ∧ resule_oj d' = resule_oj d
  end.
Proof.
  induction input as [|b rest IH]; intros d d' fs H; simpl in H.
  - by injection H as <- <-.
  - destruct (rx_byte char_signed d b) as [[d1 f1]|] eqn:E1; [|discriminate].
    simpl in H.
    destruct (receiveHandle char_signed d1 rest) as [[d2 f2]|] eqn:E2; [|discriminate].
    simpl in H. injection H as <- <-.
    specialize (IH _ _ _ E2).
    apply rx_byte_result_slot in E1.
    destruct (last f2) as [fr|] eqn:El.
    + rewrite last_app, El. done.
    + destruct IH as (-> & Hs & Hr). rewrite app_nil_r, Hs, Hr.
      destruct E1 as [(-> & ? & ?)|(fr & -> & ? & ?)]; simpl; auto.
Qed.

(** X1: the constructor clears [success], whatever the storage of the
    object held, and nothing else.  A constructed decoder has no frame for
    [get_servos], and after any calls of [receiveHandle] it has one exactly
    when the calls published one. *)
Theorem constructed_has_no_frame (storage : blue_controller) :
  (∀ dst, get_servos (construct storage) dst = Ok (false, construct storage, dst))
  ∧ rx_equiv storage (construct storage)
  ∧ (∀ input d fs,
       receiveHandle char_signed (construct storage) input = Ok (d, fs) →
       (success d = 0 ↔ fs = [])
       ∧ (fs = [] → ∀ dst, get_servos d dst = Ok (false, d, dst))).
Proof.
  split; [intros dst; by apply get_servos_not_ready|].
  split; [by repeat split|].
  intros input d fs H. apply receiveHandle_result_slot in H.
  destruct (last fs) as [fr|] eqn:El.
  - destruct H as [H1 _]. assert (fs ≠ []) as Hne by (by intros ->).
    split; [|done]. rewrite H1. split; [discriminate | done].
  - destruct H as (-> & H0 & _). simpl in H0. split; [done|].
    intros _ dst. by apply get_servos_not_ready.
Qed.

(** X2: the result slot is a single one.  After [receiveHandle] returns,
    [resule_oj] is the last frame published during the call and [success]
    is 1, whether or not an earlier frame was still unread; when the call
    published nothing, [resule_oj] and [success] are as before: the call
    never withdraws a frame. *)
Theorem result_slot_holds_last_frame (input : list Z) (d d' : blue_controller)
    (fs : list blue_info) :
  receiveHandle char_signed d input = Ok (d', fs) →
  match last fs with
  | Some fr => success d' = 1 ∧ resule_oj d' = fr
  | None => fs = [] ∧ success d' = success d ∧ resule_oj d' = resule_oj d
  end.
Proof. apply receiveHandle_result_slot. Qed.

(** ** The length byte *)

(** X3: the test [rx > 0 || rx < 128] rejects nothing.  In AWAIT_LENGTH
    every byte, 0 and 128 to 255 included, is stored as [rec_num] and the
    decoder moves to AWAIT_FUNCTION, whether [char] is signed or not; the
    [else] branch that would go back to AWAIT_HEADER is dead. *)
Theorem length_byte_never_rejected (d : blue_controller) (b : Z) :
  step d = 1 →
  ∃ d', rx_byte char_signed d b = Ok (d', [])
        ∧ step d' = 2 ∧ rec_num (rec_oj d') = u8 b
        ∧ func (rec_oj d') = func (rec_oj d) ∧ buf (rec_oj d') = buf (rec_oj d)
        ∧ resule_oj d' = resule_oj d ∧ success d' = success d
        ∧ head_count d' = head_count d ∧ data_count d' = data_count d.
Proof.
  intros Hs. eexists. split; [by apply length_byte|]. by repeat split.
Qed.

End ResultSlot.

(** ** What the decoder keeps, publishes and never does *)

Section Safety.
Variable char_signed : bool.

Lemma get_servos_rx_equiv (d d' : blue_controller) (dst dst' : uHand_Servo)
    (r : bool) :
  get_servos d dst = Ok (r, d', dst') → rx_equiv d d'.
Proof.
  intros H.
  destruct (Z.eq_dec (success d) 0) as [E|E].
  - rewrite get_servos_not_ready in H by done. injection H as _ <- _. by repeat split.
  - destruct (Z.eq_dec (func (resule_oj d)) CMD_SERVO_MOVE) as [F|F].
    + rewrite get_servos_servo_move in H by done. cbv zeta in H.
      destruct (servo_loop _ _ _ _) in H; simpl in H; [|discriminate].
      injection H as _ <- _. by repeat split.
    + rewrite get_servos_other_function in H by done.
      injection H as _ <- _. by repeat split.
Qed.

Lemma rx_inv_equiv (d d' : blue_controller) :
  rx_equiv d d' → rx_inv d → rx_inv d'.
Proof.
  intros (Hr & _ & Hs & Hh & Hc). unfold rx_inv.
  by rewrite <- Hr, <- Hs, <- Hh, <- Hc.
Qed.

Lemma rx_byte_outside_payload (d d' : blue_controller) (b : Z)
    (fs : list blue_info) :
  step d ≠ 3 → rx_byte char_signed d b = Ok (d', fs) →
  fs = [] ∧ (step d' = 3 → step d = 2 ∧ 0 < to_char char_signed b
                           ∧ func (rec_oj d') = u8 b
                           ∧ data_count d' = data_count d).
Proof.
  intros Hs H. unfold rx_byte in H.
  destruct (Z.eqb_spec (step d) 0) as [E0|E0].
  { destruct (to_char char_signed b =? FRAME_HEADER).
    - simpl in H. rewrite E0 in H.
      destruct (1 <? u8 (head_count d + 1)); injection H as <- <-;
        simpl; (split; [done|]); [change (u8 (0 + 1)) with 1 | rewrite E0];
        discriminate.
    - injection H as <- <-. simpl. rewrite E0. by split. }
  destruct (Z.eqb_spec (step d) 1) as [E1|E1].
  { rewrite length_test_always_true in H. injection H as <- <-. simpl.
    rewrite E1. change (u8 (1 + 1)) with 2. by split. }
  destruct (Z.eqb_spec (step d) 2) as [E2|E2].
  { destruct (Z.ltb_spec 0 (to_char char_signed b)); injection H as <- <-; simpl.
    - rewrite u8_to_char. by repeat split.
    - rewrite E2. by split. }
  destruct (Z.eqb_spec (step d) 3) as [E3|E3]; [done|].
  injection H as <- <-. by split.
Qed.

Lemma rx_safe_fresh : rx_safe fresh.
Proof. split; [apply rx_inv_fresh | discriminate]. Qed.

Lemma rx_byte_safe (d d' : blue_controller) (b : Z) (fs : list blue_info) :
  rx_safe d → rx_byte char_signed d b = Ok (d', fs) →
  rx_safe d'
  ∧ Forall (λ fr, 2 ≤ rec_num fr ≤ 129 ∧ 1 ≤ func fr ≤ 255) fs.
Proof.
  intros [Hinv Hpay] H. pose proof (rx_byte_inv _ _ _ _ _ Hinv H) as Hinv'.
  destruct (Z.eq_dec (step d) 3) as [E|E].
  - destruct Hinv as (_ & _ & Hc & _ & Hn). unfold BUF_SIZE in Hc.
    destruct (Hpay E) as [Hd Hf].
    destruct (Z.eq_dec (data_count d) 128) as [E128|E128].
    { rewrite payload_byte_overrun in H by (unfold BUF_SIZE; done || lia).
      discriminate. }
    destruct (Z.le_gt_cases (data_count d + 1) (rec_num (rec_oj d) - 2)).
    + rewrite payload_byte_stored in H by (unfold BUF_SIZE; done || lia).
      injection H as <- <-. split; [|constructor].
      split; [done|]. simpl. intros _. split; [lia | done].
    + destruct (Z.lt_ge_cases (rec_num (rec_oj d)) 2).
      { rewrite payload_byte_underflow in H by (unfold BUF_SIZE; done || lia).
        discriminate. }
      rewrite payload_byte_completes in H by (unfold BUF_SIZE; done || lia).
      cbv zeta in H. injection H as <- <-. split.
      * split; [done|]. simpl. discriminate.
      * repeat constructor; simpl; lia.
  - destruct (rx_byte_outside_payload _ _ _ _ E H) as [-> Hnext].
    split; [|constructor]. split; [done|].
    intros E'. destruct (Hnext E') as (E2 & Hb & Hf & Hc).
    destruct Hinv as (_ & _ & _ & Hc0 & _).
    rewrite Hf, Hc, Hc0 by lia. split; [by left|].
    pose proof (u8_range b) as Hu. rewrite <- (u8_to_char char_signed) in *.
    pose proof (to_char_range char_signed b) as Hr.
    destruct char_signed; [rewrite u8_small; lia|].
    rewrite u8_small; lia.
Qed.

Lemma rx_byte_fault (d : blue_controller) (b : Z) (f : fault) :
  rx_safe d → rx_byte char_signed d b = Undefined f →
  step d = 3
  ∧ ((rec_num (rec_oj d) < 2 ∧ f = OobCopy (rec_num (rec_oj d) + 65534))
     ∨ (130 ≤ rec_num (rec_oj d) ∧ f = OobWrite RecBuf 128)).
Proof.
  intros [Hinv Hpay] H.
  destruct (Z.eq_dec (step d) 3) as [E|E].
  - split; [done|].
    destruct Hinv as (_ & _ & Hc & _ & Hn). unfold BUF_SIZE in Hc.
    destruct (Hpay E) as [Hd Hf].
    destruct (Z.eq_dec (data_count d) 128) as [E128|E128].
    { rewrite payload_byte_overrun in H by (unfold BUF_SIZE; done || lia).
      injection H as <-. right. rewrite E128. split; [lia | done]. }
    destruct (Z.le_gt_cases (data_count d + 1) (rec_num (rec_oj d) - 2)).
    + rewrite payload_byte_stored in H by (unfold BUF_SIZE; done || lia).
      discriminate.
    + destruct (Z.lt_ge_cases (rec_num (rec_oj d)) 2).
      { rewrite payload_byte_underflow in H by (unfold BUF_SIZE; done || lia).
        injection H as <-. by left. }
      rewrite payload_byte_completes in H by (unfold BUF_SIZE; done || lia).
      discriminate.
  - exfalso. unfold rx_byte in H.
    repeat match type of H with
    | context [?a =? ?c] => destruct (Z.eqb_spec a c)
    | context [?a <? ?c] => destruct (a <? c)
    | context [?a || ?c] => destruct (a || c)
    | _ => progress simpl in H
    end; done.
Qed.

Lemma receiveHandle_prints_nothing (input : list Z) : ∀ d d' fs,
  rx_inv d → receiveHandle char_signed d input = Ok (d', fs) →
  serial_out d' = serial_out d.
Proof.
  induction input as [|b rest IH]; intros d d' fs Hd H; simpl in H.
  - by injection H as <- _.
  - destruct (rx_byte char_signed d b) as [[d1 f1]|] eqn:E1; [|discriminate].
    simpl in H.
    destruct (receiveHandle char_signed d1 rest) as [[d2 f2]|] eqn:E2; [|discriminate].
    simpl in H. injection H as <- _.
    rewrite (IH _ _ _ (rx_byte_inv _ _ _ _ _ Hd E1) E2).
    destruct Hd as (Hs & _).
    unfold rx_byte in E1.
    repeat match type of E1 with
    | context [?a =? ?c] => destruct (Z.eqb_spec a c)
    | context [?a <? ?c] => destruct (Z.ltb_spec a c)
    | context [?a || ?c] => destruct (a || c)
    | context [buf_store ?a ?l ?i ?v] => destruct (buf_store a l i v)
    | context [memcpy ?a ?l ?i] => destruct (memcpy a l i)
    | _ => progress simpl in E1
    end; try discriminate; try lia; by injection E1 as <- _.
Qed.

(** X4: the statics never leave their range.  From a state where [step] is
    0 to 3, [head_count] is 0, or 1 in AWAIT_HEADER, [data_count] is at most
    128 and 0 outside AWAIT_PAYLOAD, and [rec_num] is a byte (the fresh
    decoder is such a state), every returning call of [receiveHandle] and
    of [get_servos] ends in such a state again; so the [default:] branch of
    the [switch] never runs and [receiveHandle] prints nothing. *)
Theorem statics_stay_in_range (d : blue_controller) :
  rx_inv d →
  (∀ input d' fs, receiveHandle char_signed d input = Ok (d', fs) →
     rx_inv d' ∧ serial_out d' = serial_out d)
  ∧ (∀ dst r d' dst', get_servos d dst = Ok (r, d', dst') → rx_inv d').
Proof.
  intros Hd. split.
  - intros input d' fs H. split.
    + by eapply receiveHandle_inv.
    + by eapply receiveHandle_prints_nothing.
  - intros dst r d' dst' H. eapply rx_inv_equiv; [|done].
    by eapply get_servos_rx_equiv.
Qed.

Lemma receiveHandle_safe (input : list Z) : ∀ d d' fs,
  rx_safe d → receiveHandle char_signed d input = Ok (d', fs) →
  rx_safe d' ∧ Forall (λ fr, 2 ≤ rec_num fr ≤ 129 ∧ 1 ≤ func fr ≤ 255) fs.
Proof.
  induction input as [|b rest IH]; intros d d' fs Hd H; simpl in H.
  - injection H as <- <-. by split.
  - destruct (rx_byte char_signed d b) as [[d1 f1]|] eqn:E1; [|discriminate].
    simpl in H.
    destruct (receiveHandle char_signed d1 rest) as [[d2 f2]|] eqn:E2; [|discriminate].
    simpl in H. injection H as <- <-.
    destruct (rx_byte_safe _ _ _ _ Hd E1) as [Hd1 Hf1].
    destruct (IH _ _ _ Hd1 E2) as [Hd2 Hf2].
    split; [done | by apply Forall_app].
Qed.

(** X5: whatever bytes a fresh decoder is fed, every frame it publishes has
    a length byte from 2 to 129 and a function code from 1 to 255: a frame
    with another length byte runs into undefined behaviour before it is
    published, and the function code 0 aborts the frame. *)
Theorem published_frames_are_bounded (input : list Z) (d : blue_controller)
    (fs : list blue_info) :
  receiveHandle char_signed fresh input = Ok (d, fs) →
  Forall (λ fr, 2 ≤ rec_num fr ≤ 129 ∧ 1 ≤ func fr ≤ 255) fs.
Proof. intros H. by apply (receiveHandle_safe _ _ _ _ rx_safe_fresh H). Qed.

(** X6: the only undefined behaviour of [receiveHandle], whatever bytes a
    fresh decoder is fed, is at a payload byte of a frame whose length byte
    is not between 2 and 129: below 2 it is the [memcpy] with the count
    [(size_t)(rec_num - 2)], from 130 on the write to [rec_oj.buf[128]]. *)
Theorem receive_faults_only_on_bad_length (input : list Z) (f : fault) :
  receiveHandle char_signed fresh input = Undefined f →
  ∃ pre b rest d fs,
    input = pre ++ b :: rest
    ∧ receiveHandle char_signed fresh pre = Ok (d, fs)
    ∧ rx_byte char_signed d b = Undefined f
    ∧ step d = 3
    ∧ ((rec_num (rec_oj d) < 2 ∧ f = OobCopy (rec_num (rec_oj d) + 65534))
       ∨ (130 ≤ rec_num (rec_oj d) ∧ f = OobWrite RecBuf 128)).
Proof.
  assert (∀ input d0, rx_safe d0 →
    receiveHandle char_signed d0 input = Undefined f →
    ∃ pre b rest d fs,
      input = pre ++ b :: rest
      ∧ receiveHandle char_signed d0 pre = Ok (d, fs)
      ∧ rx_byte char_signed d b = Undefined f
      ∧ step d = 3
      ∧ ((rec_num (rec_oj d) < 2 ∧ f = OobCopy (rec_num (rec_oj d) + 65534))
         ∨ (130 ≤ rec_num (rec_oj d) ∧ f = OobWrite RecBuf 128))) as Hgen.
  { clear input. intros input.
    induction input as [|b rest IH]; intros d0 Hd H; simpl in H; [discriminate|].
    destruct (rx_byte char_signed d0 b) as [[d1 f1]|f0] eqn:E1.
    - simpl in H.
      destruct (receiveHandle char_signed d1 rest) as [[d2 f2]|f0] eqn:E2;
        simpl in H; [discriminate|]. injection H as ->.
      destruct (rx_byte_safe _ _ _ _ Hd E1) as [Hd1 _].
      destruct (IH _ Hd1 E2) as (pre & c & rest' & d & fs & -> & Hpre & Hc & Hrest).
      exists (b :: pre), c, rest', d, (f1 ++ fs).
      split; [done|]. split; [|done].
      simpl. rewrite E1. simpl. by rewrite Hpre.
    - simpl in H. injection H as ->.
      exists [], b, rest, d0, []. split; [done|]. split; [done|].
      split; [done|]. by apply (rx_byte_fault d0 b). }
  apply Hgen, rx_safe_fresh.
Qed.

(** X7: a length byte of 0 or 1 is accepted, and after an accepted function
    code the first payload byte completes the frame with a negative count:
    [memcpy] is called with [(size_t)(rec_num - 2)], 65534 or 65535 where
    [size_t] has 16 bits. *)
Theorem short_length_frame_underflows (d : blue_controller) (n f b : Z) :
  step d = 0 → head_count d = 0 → data_count d = 0 →
  0 ≤ n < 2 → 0 < to_char char_signed f →
  receiveHandle char_signed d [FRAME_HEADER; FRAME_HEADER; n; f; b]
  = Undefined (OobCopy (n + 65534)).
Proof.
  intros Hs Hh Hc Hn Hf.
  change [FRAME_HEADER; FRAME_HEADER; n; f; b]
    with ([FRAME_HEADER; FRAME_HEADER; n; f] ++ [b]).
  rewrite receiveHandle_app, frame_prelude by done. simpl.
  rewrite payload_byte_underflow;
    simpl; rewrite ?Hc, ?u8_small; unfold BUF_SIZE; (done || lia).
Qed.

(** X8: bytes other than 0x55 in front of a frame do not matter.  In
    AWAIT_HEADER with no marker pending the decoder treats any input as if
    such leading bytes were not there; and with a marker pending, one such
    byte is enough to forget it. *)
Theorem leading_garbage_ignored (d : blue_controller) (garbage rest : list Z) :
  step d = 0 → Forall (λ b, u8 b ≠ FRAME_HEADER) garbage →
  (head_count d = 0 →
     receiveHandle char_signed d (garbage ++ rest)
     = receiveHandle char_signed d rest)
  ∧ (garbage ≠ [] →
     receiveHandle char_signed d (garbage ++ rest)
     = receiveHandle char_signed (with_head_count 0 d) rest).
Proof.
  intros Hs Hg.
  assert (∀ e, ('(d1, f1) ← Ok (e, @nil blue_info);
                '(d2, f2) ← receiveHandle char_signed d1 rest; Ok (d2, f1 ++ f2))
               = receiveHandle char_signed e rest) as Hbind.
  { intros e. simpl. by destruct (receiveHandle char_signed e rest) as [[? ?]|]. }
  rewrite receiveHandle_app, header_non_markers by done.
  rewrite Hbind. split.
  - intros Hh. destruct garbage; [done|].
    replace (with_head_count 0 d) with d; [done|].
    destruct d; simpl in *; by subst.
  - intros Hne. by destruct garbage.
Qed.

End Safety.

(** ** Frames in a stream *)

Lemma whole_frame_published (sgn : bool) (d : blue_controller) (n f : Z)
    (payload : list Z) (last : Z) :
  step d = 0 → head_count d = 0 → data_count d = 0 →
  length (buf (rec_oj d)) = Z.to_nat BUF_SIZE →
  2 ≤ n ≤ 129 → 0 < to_char sgn f →
  Z.of_nat (length payload) = n - 2 →
  let copied := (u8 <$> payload) ++ drop (Z.to_nat (n - 2)) (buf (resule_oj d)) in
  let stored := <[Z.to_nat (n - 2) := u8 last]>
                  (list_inserts 0 (u8 <$> payload) (buf (rec_oj d))) in
  receiveHandle sgn d ([FRAME_HEADER; FRAME_HEADER; n; f] ++ payload ++ [last])
  = Ok (published (awaiting_payload d n (u8 f)) stored copied,
        [{| rec_num := n; func := u8 f; buf := copied |}]).
Proof.
  unfold BUF_SIZE. intros Hs Hh Hc Hlen Hn Hf Hp.
  assert (u8 n = n) as Hu by (apply u8_small; lia).
  cbv zeta.
  rewrite (app_assoc _ payload [last]), receiveHandle_app.
  rewrite frame_payload_prefix by (unfold BUF_SIZE; try done; lia). simpl.
  rewrite payload_byte_completes by (unfold BUF_SIZE; simpl; lia).
  cbv zeta. simpl. rewrite Hu, Hp.
  replace (Z.to_nat (n - 2)) with (length (u8 <$> payload))
    by (rewrite length_fmap; lia).
  by rewrite take_insert_ge, inserts_take by (rewrite ?length_fmap; lia).
Qed.

(** X9: frames sent back to back lose every second one.  A frame laid out
    as the comment of [receiveHandle] says, [num] counting itself, [func]
    and the payload, is published only by the byte after it; when that
    byte is the first 0x55 of the next frame, the next frame is left with
    one marker and is dropped (here: a next frame with no 0x55 after its
    header). *)
Theorem back_to_back_frame_dropped (sgn : bool) (d : blue_controller) (n f : Z)
    (payload tail : list Z) :
  step d = 0 → head_count d = 0 → data_count d = 0 →
  length (buf (rec_oj d)) = Z.to_nat BUF_SIZE →
  2 ≤ n ≤ 129 → 0 < to_char sgn f →
  Z.of_nat (length payload) = n - 2 →
  Forall (λ b, u8 b ≠ FRAME_HEADER) tail →
  let first := {| rec_num := n; func := u8 f;
                  buf := (u8 <$> payload)
                         ++ drop (Z.to_nat (n - 2)) (buf (resule_oj d)) |} in
  (∃ d1, receiveHandle sgn d ([FRAME_HEADER; FRAME_HEADER; n; f] ++ payload)
         = Ok (d1, []) ∧ step d1 = 3)
  ∧ ∃ d2, receiveHandle sgn d
            (([FRAME_HEADER; FRAME_HEADER; n; f] ++ payload)
             ++ [FRAME_HEADER; FRAME_HEADER] ++ tail)
          = Ok (d2, [first])
          ∧ step d2 = 0 ∧ success d2 = 1 ∧ resule_oj d2 = first.
Proof.
  intros Hs Hh Hc Hlen Hn Hf Hp Htail first. split.
  - eexists. split;
      [apply frame_payload_prefix; unfold BUF_SIZE; try done;
         rewrite ?u8_small; lia
      | reflexivity].
  - replace (([FRAME_HEADER; FRAME_HEADER; n; f] ++ payload)
             ++ [FRAME_HEADER; FRAME_HEADER] ++ tail)
      with (([FRAME_HEADER; FRAME_HEADER; n; f] ++ payload ++ [FRAME_HEADER])
            ++ FRAME_HEADER :: tail) by (by rewrite <- !app_assoc).
    rewrite receiveHandle_app, whole_frame_published by done.
    cbv zeta. simpl.
    rewrite header_first_marker by done. simpl.
    rewrite header_non_markers by done. simpl.
    eexists. split; [reflexivity|]. by destruct tail.
Qed.

(** ** Reading the payload *)

Lemma le16_bytes (hi lo : Z) :
  0 ≤ hi < 256 → 0 ≤ lo < 256 → le16 hi lo = 256 * hi + lo.
Proof.
  intros Hhi Hlo. unfold le16, u16.
  change 0xff00 with (Z.shiftl 255 8).
  rewrite <- Z.shiftl_land.
  change 255 with (Z.ones 8). rewrite Z.land_ones by lia.
  change (2 ^ 8) with 256. rewrite (Z.mod_small hi) by lia.
  rewrite Z.shiftl_mul_pow2 by lia. change (2 ^ 8) with 256.
  rewrite Z.mod_small; lia.
Qed.

Lemma le16_is_byte_pair (p : Z) :
  0 ≤ p < 65536 →
  le16 (p / 256) (p mod 256) = p
  ∧ 0 ≤ p / 256 < 256 ∧ 0 ≤ p mod 256 < 256.
Proof.
  intros Hp.
  assert (0 ≤ p / 256 < 256) as Hhi
    by (split; [apply Z.div_pos; lia | apply Z.div_lt_upper_bound; lia]).
  assert (0 ≤ p mod 256 < 256) as Hlo by (apply Z.mod_pos_bound; lia).
  split; [|done]. rewrite le16_bytes by done.
  symmetry. apply Z.div_mod. lia.
Qed.

(** X10: [(hi << 8 & 0xff00) + lo] reads two payload bytes as a 16-bit
    number, low byte first: on bytes it is [256 * hi + lo], so the time and
    the positions of 0 to 65535 come back from their two bytes. *)
Theorem le16_is_little_endian :
  (∀ hi lo, 0 ≤ hi < 256 → 0 ≤ lo < 256 →
     le16 hi lo = 256 * hi + lo ∧ 0 ≤ le16 hi lo < 65536)
  ∧ (∀ p, 0 ≤ p < 65536 → le16 (p / 256) (p mod 256) = p).
Proof.
  split.
  - intros hi lo Hhi Hlo. rewrite le16_bytes by done. lia.
  - intros p Hp.
    rewrite le16_bytes.
    + symmetry. apply Z.div_mod. lia.
    + split; [apply Z.div_pos; lia | apply Z.div_lt_upper_bound; lia].
    + apply Z.mod_pos_bound. lia.
Qed.

(** X11: the only undefined behaviour of [get_servos] is the write to
    [servos[6]], and it happens exactly when a servo-move frame is ready
    whose servo count [payload[0]] exceeds 6; in particular no read of
    [resule_oj.buf] is ever out of bounds. *)
Theorem get_servos_only_fault (d : blue_controller) (dst : uHand_Servo)
    (f : fault) :
  get_servos d dst = Undefined f
  ↔ success d ≠ 0 ∧ func (resule_oj d) = CMD_SERVO_MOVE
    ∧ SERVO_SLOTS < default 0 (buf (resule_oj d) !! 0%nat)
    ∧ f = OobWrite ServoSlots SERVO_SLOTS.
Proof.
  split.
  - intros H.
    destruct (Z.eq_dec (success d) 0) as [E|E];
      [by rewrite get_servos_not_ready in H|].
    destruct (Z.eq_dec (func (resule_oj d)) CMD_SERVO_MOVE) as [F|F];
      [|by rewrite get_servos_other_function in H].
    destruct (Z.lt_ge_cases SERVO_SLOTS (default 0 (buf (resule_oj d) !! 0%nat)))
      as [Hk|Hk].
    + rewrite get_servos_beyond_capacity in H by done. by injection H as <-.
    + exfalso.
      destruct (Z.lt_ge_cases (default 0 (buf (resule_oj d) !! 0%nat)) 0) as [Hn|Hn].
      * rewrite get_servos_servo_move in H by done. cbv zeta in H.
        replace (Z.to_nat (default 0 (buf (resule_oj d) !! 0%nat))) with 0%nat in H
          by lia.
        discriminate.
      * by rewrite get_servos_loop_within in H.
  - intros (Hs & Hf & Hk & ->). by apply get_servos_beyond_capacity.
Qed.

(** ** Polling between bytes *)

Lemma rx_byte_equiv (sgn : bool) (d1 d2 : blue_controller) (b : Z) :
  rx_equiv d1 d2 →
  match rx_byte sgn d1 b, rx_byte sgn d2 b with
  | Ok (e1, f1), Ok (e2, f2) => rx_equiv e1 e2 ∧ f1 = f2
  | Undefined g1, Undefined g2 => g1 = g2
  | _, _ => False
  end.
Proof.
  destruct d1 as [r1 s1 ok1 st1 hc1 dc1 out1], d2 as [r2 s2 ok2 st2 hc2 dc2 out2].
  unfold rx_equiv. simpl. intros (-> & -> & -> & -> & ->).
  unfold rx_byte. simpl.
  repeat match goal with
  | |- context [?a =? ?c] => destruct (a =? c)
  | |- context [?a <? ?c] => destruct (a <? c)
  | |- context [?a || ?c] => destruct (a || c)
  | |- context [buf_store ?a ?l ?i ?v] => destruct (buf_store a l i v)
  | |- context [memcpy ?a ?l ?i] => destruct (memcpy a l i)
  | _ => progress simpl
  end; done.
Qed.

Lemma receiveHandle_equiv (sgn : bool) (input : list Z) : ∀ d1 d2,
  rx_equiv d1 d2 →
  match receiveHandle sgn d1 input, receiveHandle sgn d2 input with
  | Ok (e1, f1), Ok (e2, f2) => rx_equiv e1 e2 ∧ f1 = f2
  | Undefined g1, Undefined g2 => g1 = g2
  | _, _ => False
  end.
Proof.
  induction input as [|b rest IH]; intros d1 d2 H; simpl; [done|].
  pose proof (rx_byte_equiv sgn d1 d2 b H) as Hb.
  destruct (rx_byte sgn d1 b) as [[e1 f1]|g1], (rx_byte sgn d2 b) as [[e2 f2]|g2];
    try done; simpl.
  destruct Hb as [He ->]. specialize (IH e1 e2 He).
  destruct (receiveHandle sgn e1 rest) as [[e1' f1']|g1],
           (receiveHandle sgn e2 rest) as [[e2' f2']|g2]; try done; simpl.
  by destruct IH as [? ->].
Qed.

(** X12: polling does not disturb the reception.  [get_servos] changes
    nothing but [success] and the printed lines, and [receiveHandle] reads
    neither: called before and after a [get_servos] that returns, in the
    middle of a frame or not, [receiveHandle] publishes the same frames on
    the same input and arrives at the same buffers and statics, or runs
    into the same undefined behaviour. *)
Theorem polling_does_not_disturb_reception (sgn : bool) (d d' : blue_controller)
    (dst dst' : uHand_Servo) (r : bool) (input : list Z) :
  get_servos d dst = Ok (r, d', dst') →
  rx_equiv d d'
  ∧ (∀ e fs, receiveHandle sgn d input = Ok (e, fs) →
       ∃ e', receiveHandle sgn d' input = Ok (e', fs) ∧ rx_equiv e e')
  ∧ (∀ f, receiveHandle sgn d input = Undefined f →
       receiveHandle sgn d' input = Undefined f).
Proof.
  intros H. pose proof (get_servos_rx_equiv _ _ _ _ _ H) as He.
  pose proof (receiveHandle_equiv sgn input d d' He) as Hrx.
  split; [done|]. split.
  - intros e fs Hd. rewrite Hd in Hrx.
    destruct (receiveHandle sgn d' input) as [[e' fs']|]; [|done].
    destruct Hrx as [? ->]. by exists e'.
  - intros f Hd. rewrite Hd in Hrx.
    destruct (receiveHandle sgn d' input) as [[e' fs']|]; [done|].
    by rewrite Hrx.
Qed.

(** ** A servo-move frame from the wire to the destination *)

Lemma length_target_bytes (ts : list LobotServo) :
  length (concat (target_bytes <$> ts)) = (3 * length ts)%nat.
Proof.
  induction ts as [|t ts IH]; [done|].
  change (S (S (S (length (concat (target_bytes <$> ts)))))
          = (3 * S (length ts))%nat). lia.
Qed.

Lemma lookup_target_bytes (ts : list LobotServo) (rest : list Z) :
  ∀ (j : nat) (t : LobotServo) (c : nat),
  ts !! j = Some t → (c < 3)%nat →
  (concat (target_bytes <$> ts) ++ rest) !! (3 * j + c)%nat = target_bytes t !! c.
Proof.
  induction ts as [|t0 ts IH]; intros j t c Hj Hc; [done|].
  change (concat (target_bytes <$> t0 :: ts) ++ rest)
    with (target_bytes t0 ++ (concat (target_bytes <$> ts) ++ rest)).
  destruct j as [|j].
  - injection Hj as ->. rewrite lookup_app_l by (simpl; lia). done.
  - replace (3 * S j + c)%nat with (length (target_bytes t0) + (3 * j + c))%nat
      by (simpl; lia).
    rewrite lookup_app_r by lia.
    replace (length (target_bytes t0) + (3 * j + c) - length (target_bytes t0))%nat
      with (3 * j + c)%nat by lia.
    by apply IH.
Qed.

Lemma target_bytes_are_bytes (ts : list LobotServo) :
  Forall valid_target ts →
  Forall (λ z, 0 ≤ z < 256) (concat (target_bytes <$> ts)).
Proof.
  induction 1 as [|t ts [Hid Hpos] _ IH]; [constructor|].
  change (concat (target_bytes <$> t :: ts))
    with (target_bytes t ++ concat (target_bytes <$> ts)).
  apply Forall_app. split; [|done].
  repeat constructor; try lia.
  - apply Z.mod_pos_bound. lia.
  - apply Z.mod_pos_bound. lia.
  - apply Z.div_pos; lia.
  - apply Z.div_lt_upper_bound; lia.
Qed.

Lemma fmap_u8_bytes (l : list Z) :
  Forall (λ z, 0 ≤ z < 256) l → u8 <$> l = l.
Proof.
  induction 1 as [|z l Hz _ IH]; [done|].
  change (u8 z :: (u8 <$> l) = z :: l). by rewrite IH, u8_small.
Qed.

Lemma decoded_servo_payload (k tl th : Z) (ts : list LobotServo)
    (rest : list Z) (j : nat) (t : LobotServo) :
  ts !! j = Some t → valid_target t →
  decoded_servo ([k; tl; th] ++ concat (target_bytes <$> ts) ++ rest) j = t.
Proof.
  intros Hj [Hid Hpos]. unfold decoded_servo. cbv zeta beta.
  assert (∀ (c : nat) (z : Z), z = 3 + Z.of_nat c → (c < 3)%nat →
            ([k; tl; th] ++ concat (target_bytes <$> ts) ++ rest)
              !! Z.to_nat (Z.of_nat j * 3 + z)
            = target_bytes t !! c) as Hat.
  { intros c z -> Hc.
    replace (Z.to_nat (Z.of_nat j * 3 + (3 + Z.of_nat c)))
      with (length [k; tl; th] + (3 * j + c))%nat by (simpl; lia).
    rewrite lookup_app_r by lia.
    replace (length [k; tl; th] + (3 * j + c) - length [k; tl; th])%nat
      with (3 * j + c)%nat by lia.
    by apply lookup_target_bytes. }
  rewrite (Hat 0%nat 3), (Hat 1%nat 4), (Hat 2%nat 5) by (done || lia). simpl.
  destruct (le16_is_byte_pair (Position t) Hpos) as [-> _].
  by destruct t.
Qed.

Lemma servo_move_payload_bytes (time : Z) (targets : list LobotServo) :
  0 ≤ time < 65536 → Forall valid_target targets →
  (length targets ≤ Z.to_nat SERVO_SLOTS)%nat →
  Forall (λ z, 0 ≤ z < 256) (servo_move_payload time targets)
  ∧ length (servo_move_payload time targets) = (3 + 3 * length targets)%nat.
Proof.
  unfold SERVO_SLOTS. intros Ht Hts Hk. split.
  - unfold servo_move_payload. apply Forall_app. split.
    + destruct (le16_is_byte_pair time Ht) as (_ & ? & ?).
      repeat constructor; lia.
    + by apply target_bytes_are_bytes.
  - unfold servo_move_payload. rewrite length_app, length_target_bytes. done.
Qed.

Lemma decoded_servos_payload (k tl th : Z) (ts : list LobotServo)
    (rest : list Z) :
  Forall valid_target ts →
  decoded_servo ([k; tl; th] ++ concat (target_bytes <$> ts) ++ rest)
    <$> seq 0 (length ts) = ts.
Proof.
  intros Hts. apply list_eq. intros j.
  rewrite list_lookup_fmap.
  destruct (ts !! j) as [t|] eqn:Hj.
  - rewrite lookup_seq_lt by (by eapply lookup_lt_Some). simpl. f_equal.
    apply decoded_servo_payload; [done|].
    by eapply Forall_lookup_1.
  - rewrite lookup_seq_ge; [done|]. by apply lookup_ge_None.
Qed.

(** X13: a servo-move command comes through unchanged.  The frame with the
    count, the time and up to six targets laid out as [get_servos] reads
    them, with [num] counting itself, [func] and the payload, publishes
    nothing by itself; with any one byte after it, it is published, and
    [get_servos] then returns [true] with exactly that count, that time and
    those targets in the first slots of the destination, whose other slots
    are as they were. *)
Theorem servo_move_round_trip (sgn : bool) (d : blue_controller) (time : Z)
    (targets : list LobotServo) (last : Z) (dst : uHand_Servo) :
  step d = 0 → head_count d = 0 → data_count d = 0 →
  length (buf (rec_oj d)) = Z.to_nat BUF_SIZE →
  0 ≤ time < 65536 → Forall valid_target targets →
  (length targets ≤ Z.to_nat SERVO_SLOTS)%nat →
  (length targets ≤ length (servos dst))%nat →
  (∃ d1, receiveHandle sgn d (servo_move_frame time targets) = Ok (d1, [])
         ∧ step d1 = 3)
  ∧ ∃ d2 res,
      receiveHandle sgn d (servo_move_frame time targets ++ [last])
      = Ok (d2, [res])
      ∧ get_servos d2 dst
        = Ok (true, with_success 0 d2,
              {| num := Z.of_nat (length targets); time := time;
                 servos := targets ++ drop (length targets) (servos dst) |}).
Proof.
  intros Hs Hh Hc Hlen Ht Hts Hk Hdst.
  destruct (servo_move_payload_bytes time targets Ht Hts Hk) as [Hbytes Hl].
  assert (0 < to_char sgn CMD_SERVO_MOVE) as Hf by (by destruct sgn).
  unfold SERVO_SLOTS in Hk. unfold servo_move_frame.
  set (P := servo_move_payload time targets) in *.
  set (n := Z.of_nat (length P) + 2).
  assert (2 ≤ n ≤ 129) as Hn by (unfold n; lia).
  split.
  - eexists. split;
      [apply frame_payload_prefix; unfold BUF_SIZE; try done;
         rewrite ?u8_small; lia
      | reflexivity].
  - rewrite <- app_assoc.
    rewrite whole_frame_published by (done || unfold n; lia).
    cbv zeta. do 2 eexists. split; [reflexivity|].
    rewrite fmap_u8_bytes by done.
    rewrite get_servos_loop_within; simpl.
    + unfold P, servo_move_payload. simpl.
      rewrite Nat2Z.id.
      pose proof (decoded_servos_payload (Z.of_nat (length targets))
                    (time `mod` 256) (time `div` 256) targets
                    (drop (Z.to_nat (n - 2)) (buf (resule_oj d))) Hts) as Hdec.
      simpl in Hdec. rewrite Hdec.
      destruct (le16_is_byte_pair time Ht) as [-> _].
      do 3 f_equal.
      rewrite <- (take_drop (length targets) (servos dst)) at 1.
      apply list_inserts_0_r. rewrite length_take. lia.
    + discriminate.
    + reflexivity.
    + unfold P, servo_move_payload, SERVO_SLOTS. simpl. lia.
Qed.

(** * Concrete runs of the further properties *)

(** X1 on zeroed storage whose flag is set. *)
Lemma constructed_has_no_frame_witness :
  get_servos (construct (with_success 1 zero_storage)) empty_servos
  = Ok (false, fresh, empty_servos)
  ∧ ∃ d, receiveHandle true (construct (with_success 1 zero_storage))
           [0x55; 0x55; 0x07] = Ok (d, [])
         ∧ get_servos d empty_servos = Ok (false, d, empty_servos).
Proof.
  destruct (constructed_has_no_frame true (with_success 1 zero_storage))
    as (H1 & _ & H3).
  split; [apply H1|].
  eexists. split; [vm_compute; reflexivity|].
  match goal with |- get_servos ?d _ = _ =>
    apply (H3 [0x55; 0x55; 0x07] d []); [vm_compute; reflexivity | reflexivity]
  end.
Defined.

(** X2 on two frames without payload: the second replaces the first. *)
Lemma result_slot_holds_last_frame_witness :
  ∃ d f1 f2,
    receiveHandle true fresh
      [0x55; 0x55; 0x02; 0x06; 0x00; 0x55; 0x55; 0x02; 0x07; 0x00]
    = Ok (d, [f1; f2])
    ∧ func f1 = 6 ∧ func f2 = 7 ∧ success d = 1 ∧ resule_oj d = f2.
Proof.
  do 3 eexists.
  match goal with |- ?A = Ok (?d, [?f1; ?f2]) ∧ _ =>
    assert (A = Ok (d, [f1; f2])) as H by (vm_compute; reflexivity);
    split; [exact H|]; split; [reflexivity|]; split; [reflexivity|];
    exact (result_slot_holds_last_frame true _ fresh d [f1; f2] H)
  end.
Defined.

(** X3 at the length byte 0xC8 with a signed [char]. *)
Lemma length_byte_never_rejected_witness :
  ∃ d', rx_byte true (with_step 1 fresh) 0xC8 = Ok (d', [])
        ∧ step d' = 2 ∧ rec_num (rec_oj d') = 200.
Proof.
  destruct (length_byte_never_rejected true (with_step 1 fresh) 0xC8)
    as (d' & H & Hs & Hn & _); [reflexivity|].
  exists d'. split; [exact H|]. split; [exact Hs | exact Hn].
Defined.

(** X4 on a fresh decoder and the example frame. *)
Lemma statics_stay_in_range_witness :
  ∃ d, receiveHandle true fresh example_frame = Ok (d, [example_result])
       ∧ rx_inv d ∧ serial_out d = [].
Proof.
  destruct (example_frame_received true) as (d & Hrx & _).
  exists d. split; [exact Hrx|].
  apply (statics_stay_in_range true fresh) in Hrx; [exact Hrx|].
  unfold rx_inv, BUF_SIZE. simpl. lia.
Defined.

(** X5 on the example frame. *)
Lemma published_frames_are_bounded_witness :
  2 ≤ rec_num example_result ≤ 129 ∧ 1 ≤ func example_result ≤ 255.
Proof.
  destruct (example_frame_received true) as (d & Hrx & _).
  apply (published_frames_are_bounded true) in Hrx.
  exact (Forall_inv Hrx).
Defined.

(** X6 on a frame with the length byte 0. *)
Lemma receive_faults_only_on_bad_length_witness :
  ∃ pre b rest d fs,
    [0x55; 0x55; 0x00; 0x03; 0xAA] = pre ++ b :: rest
    ∧ receiveHandle true fresh pre = Ok (d, fs)
    ∧ rx_byte true d b = Undefined (OobCopy 65534)
    ∧ step d = 3.
Proof.
  destruct (receive_faults_only_on_bad_length true
              [0x55; 0x55; 0x00; 0x03; 0xAA] (OobCopy 65534))
    as (pre & b & rest & d & fs & H1 & H2 & H3 & H4 & _);
    [vm_compute; reflexivity|].
  exists pre, b, rest, d, fs. repeat split; assumption.
Defined.

(** X7 at the length byte 1. *)
Lemma short_length_frame_underflows_witness :
  receiveHandle true fresh [0x55; 0x55; 0x01; 0x03; 0x00]
  = Undefined (OobCopy 65535).
Proof.
  apply (short_length_frame_underflows true fresh 1 3 0);
    [reflexivity | reflexivity | reflexivity | lia | reflexivity].
Defined.

(** X8: three bytes of noise before the example frame. *)
Lemma leading_garbage_ignored_witness :
  receiveHandle true fresh ([0x01; 0x02; 0x03] ++ example_frame)
  = receiveHandle true fresh example_frame.
Proof.
  destruct (leading_garbage_ignored true fresh [0x01; 0x02; 0x03] example_frame)
    as [H _]; [reflexivity | repeat constructor; vm_compute; discriminate |].
  apply H. reflexivity.
Defined.

(** X9: an action-group-run frame directly followed by an
    action-group-stop frame; only the first is published. *)
Lemma back_to_back_frame_dropped_witness :
  ∃ d2, receiveHandle true fresh
          (([0x55; 0x55; 0x02; CMD_ACTION_GROUP_RUN] ++ [])
           ++ [0x55; 0x55] ++ [0x02; CMD_ACTION_GROUP_STOP])
        = Ok (d2, [{| rec_num := 2; func := 6; buf := replicate 128 0 |}])
        ∧ step d2 = 0 ∧ success d2 = 1.
Proof.
  destruct (back_to_back_frame_dropped true fresh 2 CMD_ACTION_GROUP_RUN []
              [0x02; CMD_ACTION_GROUP_STOP])
    as (_ & d2 & H & Hs & Hok & _);
    [reflexivity | reflexivity | reflexivity | reflexivity | lia
    | reflexivity | reflexivity
    | repeat constructor; vm_compute; discriminate |].
  exists d2. split; [exact H|]. split; assumption.
Defined.

(** X10 at the position 1134 = 0x046E. *)
Lemma le16_is_little_endian_witness :
  le16 0x04 0x6E = 1134 ∧ le16 (1134 / 256) (1134 mod 256) = 1134.
Proof.
  destruct le16_is_little_endian as [H1 H2]. split.
  - destruct (H1 0x04 0x6E) as [-> _]; [lia | lia | reflexivity].
  - apply H2. lia.
Defined.

(** X11 at a published frame with the servo count 7. *)
Lemma get_servos_only_fault_witness :
  ∃ d res,
    receiveHandle true fresh [0x55; 0x55; 0x03; 0x03; 0x07; 0x00] = Ok (d, [res])
    ∧ get_servos d empty_servos = Undefined (OobWrite ServoSlots 6).
Proof.
  do 2 eexists. split; [vm_compute; reflexivity|].
  apply get_servos_only_fault.
  split; [discriminate|]. split; [reflexivity|].
  split; [unfold SERVO_SLOTS; simpl; lia | reflexivity].
Defined.

(** X12: the example frame is consumed by [get_servos] while the next
    frame is half received; the rest of that frame is received alike. *)
Lemma polling_does_not_disturb_reception_witness :
  ∃ d d' dst' e fr,
    receiveHandle true fresh (example_frame ++ [0x55; 0x55; 0x02])
    = Ok (d, [example_result])
    ∧ get_servos d empty_servos = Ok (true, d', dst')
    ∧ receiveHandle true d [0x06; 0x00] = Ok (e, [fr])
    ∧ ∃ e', receiveHandle true d' [0x06; 0x00] = Ok (e', [fr]) ∧ rx_equiv e e'.
Proof.
  do 5 eexists.
  match goal with
  | |- ?A = Ok (?d, _) ∧ ?B = Ok (true, ?d', ?dst') ∧ ?C = Ok (?e, [?fr]) ∧ _ =>
    assert (A = Ok (d, [example_result])) as H0 by (vm_compute; reflexivity);
    assert (B = Ok (true, d', dst')) as H1 by (vm_compute; reflexivity);
    assert (C = Ok (e, [fr])) as H2 by (vm_compute; reflexivity);
    destruct (polling_does_not_disturb_reception true d d' empty_servos dst'
                true [0x06; 0x00] H1) as (_ & H3 & _);
    destruct (H3 e [fr] H2) as (e' & H4 & H5);
    split; [exact H0|]; split; [exact H1|]; split; [exact H2|];
    exists e'; split; [exact H4 | exact H5]
  end.
Defined.

(** X13: one target, ID 5 at position 1134 in 300 ms; the frame has the
    length byte 8, and the byte after it is the 0x55 of a next frame. *)
Lemma servo_move_round_trip_witness :
  servo_move_frame 300 [{| ID := 5; Position := 1134 |}]
  = [0x55; 0x55; 0x08; 0x03; 0x01; 0x2C; 0x01; 0x05; 0x6E; 0x04]
  ∧ ∃ d2 res,
      receiveHandle true fresh
        (servo_move_frame 300 [{| ID := 5; Position := 1134 |}] ++ [0x55])
      = Ok (d2, [res])
      ∧ get_servos d2 empty_servos
        = Ok (true, with_success 0 d2,
              {| num := 1; time := 300;
                 servos := {| ID := 5; Position := 1134 |}
                           :: replicate 5 {| ID := 0; Position := 0 |} |}).
Proof.
  split; [reflexivity|].
  destruct (servo_move_round_trip true fresh 300
              [{| ID := 5; Position := 1134 |}] 0x55 empty_servos)
    as (_ & d2 & res & H1 & H2);
    [reflexivity | reflexivity | reflexivity | reflexivity | lia
    | constructor; [unfold valid_target; simpl; lia | constructor]
    | vm_compute; lia | vm_compute; lia |].
  exists d2, res. split; [exact H1 | exact H2].
Defined.
